(** * merscope_transfer.py: transfer and deletion of MERSCOPE experiments

    A shallow embedding of [transfer/bin/merscope_transfer.py].  The script
    keeps its state in module globals ([ARG], [CONFIG], [LOGGER], [ERRORS],
    [DELETED], [TRANSFERRED]) and talks to the operating system through
    [os], [shutil], [time] and [smtplib].  Here the globals are the fields
    of one [State] record that is threaded through a state-and-exception
    monad, and the operating system is an interface [OS] over an abstract
    [World]: every theorem of the first part holds for every implementation
    of that interface.  A small concrete file system at the end of the
    definitions serves to run the script on explicit inputs. *)

From Stdlib Require Import String Ascii List ZArith QArith Bool Lia.
Import ListNotations.
Local Open Scope string_scope.
Local Open Scope Z_scope.

(** ** Python values *)

(** The line feed of the f-strings and of [TEMPLATE]. *)
Definition nl : string := String "010"%char EmptyString.

(** The double quote, for the [repr] of a string that holds an apostrophe. *)
Definition dq : string := String (ascii_of_nat 34) EmptyString.

(** A caught exception, as far as the script looks at it:
    [type(err).__name__] and [err.args] as [%s] renders the tuple. *)
Record Exn : Type := mkExn { exn_type : string; exn_args : string }.

(** [NameError] of the unbound global [ERROR] (line 129). *)
Definition NameError_ERROR : Exn :=
  mkExn "NameError" ("(" ++ dq ++ "name 'ERROR' is not defined" ++ dq ++ ",)").

(** [int(x)] on a float: truncation towards zero.  Times are the exact
    rationals the floats stand for; rounding of the subtraction is not
    modelled. *)
Definition int_of_float (x : Q) : Z := Z.quot (Qnum x) (Zpos (Qden x)).

(** [sep.join(l)]. *)
Definition join (sep : string) (l : list string) : string := String.concat sep l.

(** Truth value of a list: [if TRANSFERRED:]. *)
Definition truthy {A : Type} (l : list A) : bool :=
  match l with [] => false | _ :: _ => true end.

(** ** Module constants *)

Definition TEMPLATE (name args : string) : string :=
  "An exception of type " ++ name ++ " occurred. Arguments:" ++ nl ++ args.

Definition TEMPLATE_of (err : Exn) : string :=
  TEMPLATE (exn_type err) (exn_args err).

Definition SUFFIX : list string := ["analysis"; "output"; "raw_data"].

(** ** Globals set up by the main block *)

(** [ARG]: the [argparse] namespace. *)
Record Args : Type := mkArgs {
  TRANSFER : bool;
  DELETE : bool;
  VERBOSE : bool;
  DEBUG : bool
}.

(** [CONFIG]: the dictionary read from config.json.  [minimum_age] is
    whatever the file supplies ([None] when the key is absent); the script
    stores into that key (line 97), so [CONFIG] is part of the mutable
    state. *)
Record Config : Type := mkConfig {
  source : string;
  target : string;
  secondary : string;
  sender : string;
  receivers : list string;
  mail_server : string;
  minimum_age : option Z
}.

Definition set_minimum_age (v : Z) (c : Config) : Config :=
  mkConfig (source c) (target c) (secondary c) (sender c) (receivers c)
           (mail_server c) (Some v).

(** [LOGGER]: the calls made on the logger, format string and arguments
    kept apart as [logging] receives them. *)
Inductive Level : Type := debug | info | warning | critical.

Inductive LogArg : Type :=
| Str (s : string)
| Timedelta (seconds : Z).

Record LogRecord : Type := mkLog {
  log_level : Level;
  log_format : string;
  log_args : list LogArg
}.

(** [setup_logging(arg)], lines 64-81: the level the root logger is set
    to.  The handler and its formatter decide how an emitted record looks,
    not whether it is emitted. *)
Definition setup_logging (arg : Args) : Level :=
  if DEBUG arg then debug else if VERBOSE arg then info else warning.

(** The rule of the [logging] library: a record is emitted when its level
    number is not below that of the logger. *)
Definition levelno (l : Level) : Z :=
  match l with debug => 10 | info => 20 | warning => 30 | critical => 50 end.

Definition isEnabledFor (logger_level l : Level) : bool :=
  levelno logger_level <=? levelno l.

(** The records of [LOGGER] that reach the stream under the flags [arg]. *)
Definition emitted (arg : Args) (log : list LogRecord) : list LogRecord :=
  filter (fun r => isEnabledFor (setup_logging arg) (log_level r)) log.

(** The calls the properties speak about, in the order they are made: the
    three mutators of [shutil] and [os] and the mail submission, each with
    the exception it raised if any, and the entries into the two functions
    of the deletion phase. *)
Inductive Call : Type :=
| Copytree (src tgt : string) (raised : option Exn)
| Rmtree (path : string) (raised : option Exn)
| Rmdir (path : string) (raised : option Exn)
| Sendmail (text : string) (raised : option Exn)
| Delete_directory (base_dir : string)
| Delete_experiment (exp : string).

(** ** The operating system *)

(** What the script asks of [os], [os.path], [time], [shutil] and
    [smtplib].  Queries read the world; [os.path.getmtime] may raise, even
    on a path [os.path.isfile] accepts; mutators return the exception they
    raised, if any, and the world they leave behind.  Nothing relates a
    mutator to later queries: a tree removal that returns without an
    exception may leave the directory in place (lines 120-122).  The clock
    is read anew at every call: [time_time k w] is what the reading number
    [k] of [time.time()] gives, in the world [w]. *)
Class OS (World : Type) : Type := {
  os_path_exists : string -> World -> bool;
  os_path_isfile : string -> World -> bool;
  os_path_getmtime : string -> World -> Exn + Q;
  time_time : nat -> World -> Q;
  os_listdir : string -> World -> Exn + list string;
  shutil_copytree : string -> string -> World -> option Exn * World;
  shutil_rmtree : string -> World -> option Exn * World;
  os_rmdir : string -> World -> option Exn * World;
  smtp_session : string -> string -> list string -> string -> string ->
                 World -> option Exn * World
}.

(** ** State and control *)

(** How a call ends: it returns, an exception propagates out of it, or
    [sys.exit] was called. *)
Inductive Outcome (A : Type) : Type :=
| Return (a : A)
| Raise (e : Exn)
| Exit (code : Z).
Arguments Return {A} a.
Arguments Raise {A} e.
Arguments Exit {A} code.

Section Script.

Context {World : Type} {os : OS World}.

Record State : Type := mkState {
  fs : World;
  ARG : Args;
  CONFIG : Config;
  ERRORS : list string;
  DELETED : list string;
  TRANSFERRED : list string;
  LOGGER : list LogRecord;
  calls : list Call;
  ticks : nat
}.

Definition M (A : Type) : Type := State -> Outcome A * State.

Definition ret {A : Type} (a : A) : M A := fun s => (Return a, s).

Definition bind {A B : Type} (m : M A) (k : A -> M B) : M B :=
  fun s =>
    match m s with
    | (Return a, s1) => k a s1
    | (Raise e, s1) => (Raise e, s1)
    | (Exit c, s1) => (Exit c, s1)
    end.

Definition raise {A : Type} (e : Exn) : M A := fun s => (Raise e, s).

Definition sys_exit {A : Type} (code : Z) : M A := fun s => (Exit code, s).

Definition gets {A : Type} (f : State -> A) : M A := fun s => (Return (f s), s).

Definition modify (f : State -> State) : M unit := fun s => (Return tt, f s).

Notation "x <- m ;; k" := (bind m (fun x => k))
  (at level 100, m at next level, right associativity).
Notation "m ;; k" := (bind m (fun _ => k))
  (at level 100, right associativity).

(** *** Writes to the globals *)

Definition set_fs (w : World) (s : State) : State :=
  mkState w (ARG s) (CONFIG s) (ERRORS s) (DELETED s) (TRANSFERRED s)
          (LOGGER s) (calls s) (ticks s).

Definition set_CONFIG (c : Config) (s : State) : State :=
  mkState (fs s) (ARG s) c (ERRORS s) (DELETED s) (TRANSFERRED s)
          (LOGGER s) (calls s) (ticks s).

Definition add_ERRORS (msg : string) (s : State) : State :=
  mkState (fs s) (ARG s) (CONFIG s) (ERRORS s ++ [msg]) (DELETED s)
          (TRANSFERRED s) (LOGGER s) (calls s) (ticks s).

Definition add_DELETED (path : string) (s : State) : State :=
  mkState (fs s) (ARG s) (CONFIG s) (ERRORS s) (DELETED s ++ [path])
          (TRANSFERRED s) (LOGGER s) (calls s) (ticks s).

Definition add_TRANSFERRED (exp : string) (s : State) : State :=
  mkState (fs s) (ARG s) (CONFIG s) (ERRORS s) (DELETED s)
          (TRANSFERRED s ++ [exp]) (LOGGER s) (calls s) (ticks s).

Definition add_LOGGER (r : LogRecord) (s : State) : State :=
  mkState (fs s) (ARG s) (CONFIG s) (ERRORS s) (DELETED s) (TRANSFERRED s)
          (LOGGER s ++ [r]) (calls s) (ticks s).

Definition add_call (c : Call) (s : State) : State :=
  mkState (fs s) (ARG s) (CONFIG s) (ERRORS s) (DELETED s) (TRANSFERRED s)
          (LOGGER s) (calls s ++ [c]) (ticks s).

(** One more reading of the clock has been made. *)
Definition add_tick (s : State) : State :=
  mkState (fs s) (ARG s) (CONFIG s) (ERRORS s) (DELETED s) (TRANSFERRED s)
          (LOGGER s) (calls s) (S (ticks s)).

Definition ERRORS_append (msg : string) : M unit := modify (add_ERRORS msg).
Definition DELETED_append (path : string) : M unit := modify (add_DELETED path).
Definition TRANSFERRED_append (exp : string) : M unit :=
  modify (add_TRANSFERRED exp).
Definition LOGGER_log (l : Level) (fmt : string) (args : list LogArg) : M unit :=
  modify (add_LOGGER (mkLog l fmt args)).
Definition enter (c : Call) : M unit := modify (add_call c).

(** *** Calls into the operating system *)

Definition exists_ (path : string) : M bool :=
  gets (fun s => os_path_exists path (fs s)).

Definition isfile (path : string) : M bool :=
  gets (fun s => os_path_isfile path (fs s)).

(** [os.path.getmtime(path)], outside any [try]: its exception
    propagates. *)
Definition getmtime (path : string) : M Q :=
  fun s =>
    match os_path_getmtime path (fs s) with
    | inr t => (Return t, s)
    | inl err => (Raise err, s)
    end.

(** [time.time()]: the next reading of the clock. *)
Definition time : M Q :=
  fun s => (Return (time_time (ticks s) (fs s)), add_tick s).

Definition listdir (path : string) : M (Exn + list string) :=
  gets (fun s => os_listdir path (fs s)).

(** A mutator inside [try]: the exception, if any, is handed to the
    [except] clause as a value. *)
Definition try_os (op : World -> option Exn * World)
           (record : option Exn -> Call) : M (option Exn) :=
  fun s =>
    let (r, w) := op (fs s) in
    (Return r, add_call (record r) (set_fs w s)).

Definition copytree (src tgt : string) : M (option Exn) :=
  try_os (shutil_copytree src tgt) (Copytree src tgt).

Definition rmtree (path : string) : M (option Exn) :=
  try_os (shutil_rmtree path) (Rmtree path).

Definition rmdir (path : string) : M (option Exn) :=
  try_os (os_rmdir path) (Rmdir path).

(** ** The functions of the script *)

(** [terminate_program(msg=None)], lines 26-35. *)
Definition terminate_program {A : Type} (msg : option string) : M A :=
  match msg with
  | None | Some EmptyString => sys_exit 0
  | Some m => LOGGER_log critical m [] ;; sys_exit (-1)
  end.

(** [send_email], lines 38-61.  The body (MIME assembly, SMTP session and
    the two handlers of lines 58-61) is the mail relay's side:
    [smtp_session] stands for all of it, and its result is the exception
    that leaves [send_email], if any. *)
Definition send_email (mail_text sender_ : string) (receivers_ : list string)
           (subject : string) : M unit :=
  server <- gets (fun s => mail_server (CONFIG s)) ;;
  r <- try_os (smtp_session server sender_ receivers_ subject mail_text)
              (Sendmail mail_text) ;;
  match r with
  | Some err => raise err
  | None => ret tt
  end.

(** [experiment_complete(exp)], lines 84-103. *)
Definition experiment_complete (exp : string) : M bool :=
  src <- gets (fun s => source (CONFIG s)) ;;
  let sentinel := src ++ "/merfish_raw_data/" ++ exp ++ "/MERLIN_FINISHED" in
  present <- isfile sentinel ;;
  if negb present then
    LOGGER_log warning "%s is in process" [Str exp] ;;
    ret false
  else
    modtime <- getmtime sentinel ;;
    modify (fun s => set_CONFIG (set_minimum_age (5 * 60) (CONFIG s)) s) ;;
    now <- time ;;
    let age := int_of_float (now - modtime)%Q in
    limit <- gets (fun s => minimum_age (CONFIG s)) ;;
    match limit with
    | None => raise (mkExn "KeyError" "('minimum_age',)")
    | Some minimum =>
        if age <=? minimum then
          LOGGER_log warning "%s is only %s old" [Str exp; Timedelta age] ;;
          ret false
        else ret true
    end.

(** [delete_directory(base_dir)], lines 106-132.  Line 129 names [ERROR],
    which is bound nowhere in the module: evaluating it raises
    [NameError], and no handler encloses it.  The first step notes the
    entry into the function in [calls]; it touches nothing else. *)
Definition delete_directory (base_dir : string) : M bool :=
  let deleted :=
    LOGGER_log warning "Deleted %s" [Str base_dir] ;;
    DELETED_append base_dir ;;
    ret true in
  enter (Delete_directory base_dir) ;;
  arg <- gets ARG ;;
  if DELETE arg then
    r <- rmtree base_dir ;;
    match r with
    | Some err =>
        ERRORS_append ("Could not rmtree delete " ++ base_dir ++ nl
                       ++ TEMPLATE_of err) ;;
        ret false
    | None =>
        lingers <- exists_ base_dir ;;
        (if lingers then
           r' <- rmdir base_dir ;;
           match r' with
           | Some err =>
               ERRORS_append ("Could not rmdir delete " ++ base_dir ++ nl
                              ++ TEMPLATE_of err)
           | None => ret tt
           end
         else ret tt) ;;
        lingers' <- exists_ base_dir ;;
        (if lingers' then raise NameError_ERROR else ret tt) ;;
        deleted
    end
  else deleted.

(** The loop of lines 144-148; the value is [delete_done] after the loop. *)
Fixpoint delete_loop (exp : string) (sfxs : list string) : M bool :=
  match sfxs with
  | [] => ret true
  | sfx :: rest =>
      root <- gets (fun s => source (CONFIG s)) ;;
      let src := root ++ "/merfish_" ++ sfx ++ "/" ++ exp in
      ok <- delete_directory src ;;
      if negb ok then ret false else delete_loop exp rest
  end.

(** [delete_experiment(exp)], lines 135-157; the entry is noted in
    [calls] as for [delete_directory]. *)
Definition delete_experiment (exp : string) : M unit :=
  enter (Delete_experiment exp) ;;
  TRANSFERRED_append exp ;;
  delete_done <- delete_loop exp SUFFIX ;;
  delete_done <-
    (if delete_done then
       root <- gets (fun s => secondary (CONFIG s)) ;;
       let src := root ++ "/" ++ exp in
       present <- exists_ src ;;
       if negb present then
         LOGGER_log warning "Secondary delete path %s does not exist" [Str src] ;;
         ret false
       else delete_directory src
     else ret delete_done) ;;
  if negb delete_done then
    ERRORS_append ("Deletion for " ++ exp ++ " is incomplete")
  else ret tt.

(** The loop of lines 172-174; the value is [missing] after the loop. *)
Fixpoint missing_loop (exp : string) (sfxs : list string) (missing : bool)
  : M bool :=
  match sfxs with
  | [] => ret missing
  | sfx :: rest =>
      root <- gets (fun s => source (CONFIG s)) ;;
      present <- exists_ (root ++ "/merfish_" ++ sfx ++ "/" ++ exp) ;;
      missing_loop exp rest (if negb present then true else missing)
  end.

(** The loop of lines 183-195; the value is [ok_to_delete] after the loop. *)
Fixpoint copy_loop (exp src_base : string) (sfxs : list string) : M bool :=
  match sfxs with
  | [] => ret true
  | sfx :: rest =>
      let src := src_base ++ "/merfish_" ++ sfx ++ "/" ++ exp in
      root <- gets (fun s => target (CONFIG s)) ;;
      let tgt := root ++ "/merfish_" ++ sfx ++ "/" ++ exp in
      LOGGER_log info "Copy %s to %s" [Str src; Str tgt] ;;
      arg <- gets ARG ;;
      if negb (TRANSFER arg) then copy_loop exp src_base rest
      else
        r <- copytree src tgt ;;
        match r with
        | Some err =>
            ERRORS_append ("Could not copy " ++ src ++ "/" ++ exp ++ nl
                           ++ TEMPLATE_of err) ;;
            ret false
        | None => copy_loop exp src_base rest
        end
  end.

(** [handle_single_experiment(exp)], lines 160-197. *)
Definition handle_single_experiment (exp : string) : M unit :=
  tgt <- gets (fun s => secondary (CONFIG s)) ;;
  present <- exists_ tgt ;;
  if negb present then
    ERRORS_append ("Could not find target path " ++ tgt)
  else
    missing <- missing_loop exp SUFFIX false ;;
    if missing then
      LOGGER_log debug "%s is not in the required subfolders" [Str exp]
    else
      LOGGER_log info exp [] ;;
      complete <- experiment_complete exp ;;
      if negb complete then ret tt
      else
        src_base <- gets (fun s => source (CONFIG s)) ;;
        ok_to_delete <- copy_loop exp src_base SUFFIX ;;
        if ok_to_delete then delete_experiment exp else ret tt.

(** The text assembled by [email_results], lines 208-221. *)
Definition mail_text (s : State) : string :=
  (if truthy (TRANSFERRED s) then
     "The following experiments have been transferred:" ++ nl
     ++ (if negb (TRANSFER (ARG s)) then
           "--- TRANSFER mode was not enabled - no files were transferred ---"
           ++ nl
         else EmptyString)
     ++ join nl (TRANSFERRED s) ++ nl ++ nl
   else EmptyString)
  ++ (if truthy (DELETED s) then
        "The following directories have been deleted:" ++ nl
        ++ (if negb (DELETE (ARG s)) then
              "--- DELETE mode was not enabled - no files were deleted ---"
              ++ nl
            else EmptyString)
        ++ join nl (DELETED s) ++ nl ++ nl
      else EmptyString)
  ++ (if truthy (ERRORS s) then
        "The following errors have occurred:" ++ nl ++ join nl (ERRORS s)
      else EmptyString).

(** [email_results()], lines 200-226. *)
Definition email_results : M unit :=
  LOGGER_log info "Sending mail for transferred/deleted experiments" [] ;;
  mtext <- gets mail_text ;;
  cfg <- gets CONFIG ;;
  fun s =>
    match send_email mtext (sender cfg) (receivers cfg)
                     "MERSCOPE experiments transferred" s with
    | (Raise err, s1) => terminate_program (Some (TEMPLATE_of err)) s1
    | r => r
    end.

(** The loop of lines 244-245. *)
Fixpoint for_each (dirs : list string) : M unit :=
  match dirs with
  | [] => ret tt
  | edir :: rest => handle_single_experiment edir ;; for_each rest
  end.

(** [process_experiments()], lines 229-247. *)
Definition process_experiments : M unit :=
  root <- gets (fun s => source (CONFIG s)) ;;
  let sdir := root ++ "/merfish_output" in
  LOGGER_log info "Reading experiments from %s" [Str sdir] ;;
  listing <- listdir sdir ;;
  dirs <- match listing with
          | inr dirs => ret dirs
          | inl err =>
              if String.eqb (exn_type err) "FileNotFoundError" then
                terminate_program
                  (Some ("Could not find source directory " ++ sdir))
              else terminate_program (Some (TEMPLATE_of err))
          end ;;
  for_each dirs ;;
  report <- gets (fun s => truthy (TRANSFERRED s) || truthy (DELETED s)
                           || truthy (ERRORS s)) ;;
  if report then email_results else ret tt.

(** The main block after the set-up, lines 265-266. *)
Definition main : M unit :=
  process_experiments ;;
  terminate_program None.

End Script.

Arguments State World : clear implicits.

(** ** A small file system

    One implementation of [OS], to run the script on explicit inputs.
    Directories are a list of paths, files carry their modification time,
    and four lists say which calls misbehave: a copy or a removal that is
    refused, and a tree removal that returns normally and leaves the top
    directory behind (the case lines 120-122 speak of). *)

Record Toy : Type := mkToy {
  toy_clock : Q;
  toy_dirs : list string;
  toy_files : list (string * Q);
  toy_listings : list (string * list string);
  toy_copy_refused : list string;
  toy_rmtree_refused : list string;
  toy_rmtree_leaves_top : list string;
  toy_rmdir_refused : list string
}.

(** The two exceptions the calls of this file system raise when refused. *)
Definition permission_denied : Exn :=
  mkExn "PermissionError" "(13, 'Permission denied')".

Definition directory_not_empty : Exn :=
  mkExn "OSError" "(39, 'Directory not empty')".

Definition mem (x : string) (l : list string) : bool :=
  existsb (String.eqb x) l.

Definition without (x : string) (l : list string) : list string :=
  filter (fun y => negb (String.eqb x y)) l.

Fixpoint assoc {A : Type} (x : string) (l : list (string * A)) : option A :=
  match l with
  | [] => None
  | (y, a) :: rest => if String.eqb x y then Some a else assoc x rest
  end.

Definition toy_set_dirs (d : list string) (w : Toy) : Toy :=
  mkToy (toy_clock w) d (toy_files w) (toy_listings w) (toy_copy_refused w)
        (toy_rmtree_refused w) (toy_rmtree_leaves_top w) (toy_rmdir_refused w).

Definition toy_exists (p : string) (w : Toy) : bool :=
  mem p (toy_dirs w) || mem p (map fst (toy_files w)).

Definition toy_getmtime (p : string) (w : Toy) : Exn + Q :=
  match assoc p (toy_files w) with
  | Some t => inr t
  | None => inl (mkExn "FileNotFoundError" "(2, 'No such file or directory')")
  end.

(** Each reading of the clock comes one second after the one before. *)
Definition toy_time (k : nat) (w : Toy) : Q :=
  (toy_clock w + inject_Z (Z.of_nat k))%Q.

Definition toy_listdir (p : string) (w : Toy) : Exn + list string :=
  match assoc p (toy_listings w) with
  | Some l => inr l
  | None => inl (mkExn "FileNotFoundError" "(2, 'No such file or directory')")
  end.

Definition toy_copytree (src tgt : string) (w : Toy) : option Exn * Toy :=
  if mem src (toy_copy_refused w) then
    (Some permission_denied, w)
  else (None, toy_set_dirs (tgt :: toy_dirs w) w).

Definition toy_rmtree (p : string) (w : Toy) : option Exn * Toy :=
  if negb (mem p (toy_dirs w)) then
    (Some (mkExn "FileNotFoundError" "(2, 'No such file or directory')"), w)
  else if mem p (toy_rmtree_refused w) then
    (Some permission_denied, w)
  else if mem p (toy_rmtree_leaves_top w) then (None, w)
  else (None, toy_set_dirs (without p (toy_dirs w)) w).

Definition toy_rmdir (p : string) (w : Toy) : option Exn * Toy :=
  if mem p (toy_rmdir_refused w) then
    (Some directory_not_empty, w)
  else (None, toy_set_dirs (without p (toy_dirs w)) w).

#[export] Instance toy_os : OS Toy := {|
  os_path_exists := toy_exists;
  os_path_isfile := fun p w => mem p (map fst (toy_files w));
  os_path_getmtime := toy_getmtime;
  time_time := toy_time;
  os_listdir := toy_listdir;
  shutil_copytree := toy_copytree;
  shutil_rmtree := toy_rmtree;
  os_rmdir := toy_rmdir;
  smtp_session := fun _ _ _ _ _ w => (None, w)
|}.

(** The configuration of the end-to-end scenarios of the specification. *)
Definition config0 : Config :=
  mkConfig "/data/src" "/data/tgt" "/data/sec" "merscope@example.org"
           ["lab@example.org"] "mail.example.org" None.

(** One finished experiment [E1], its marker ten minutes old. *)
Definition world0 : Toy :=
  mkToy 1000000%Q
        ["/data/src/merfish_output"; "/data/tgt"; "/data/sec";
         "/data/src/merfish_analysis/E1"; "/data/src/merfish_output/E1";
         "/data/src/merfish_raw_data/E1"; "/data/sec/E1"]
        [("/data/src/merfish_raw_data/E1/MERLIN_FINISHED", 999400%Q)]
        [("/data/src/merfish_output", ["E1"])]
        [] [] [] [].

(** The state after the main block has parsed the flags and read the
    configuration: empty report, nothing logged, no call made. *)
Definition start (w : Toy) (transfer delete : bool) : State Toy :=
  mkState w (mkArgs transfer delete false false) config0 [] [] [] [] [] 0.

(** Variations of [world0]. *)
Definition misbehaving (copy_refused rmtree_refused leaves_top rmdir_refused
                        : list string) (w : Toy) : Toy :=
  mkToy (toy_clock w) (toy_dirs w) (toy_files w) (toy_listings w)
        copy_refused rmtree_refused leaves_top rmdir_refused.

(** The copy of the second category is refused. *)
Definition world_copy_refused : Toy :=
  misbehaving ["/data/src/merfish_output/E1"] [] [] [] world0.

(** The tree removal of the second category is refused. *)
Definition world_rmtree_refused : Toy :=
  misbehaving [] ["/data/src/merfish_output/E1"] [] [] world0.

(** The analysis folder of [E1] is not there yet. *)
Definition world_missing_category : Toy :=
  toy_set_dirs (without "/data/src/merfish_analysis/E1" (toy_dirs world0))
               world0.

(** The target root is not there (say, the central storage is not
    mounted); the secondary root is. *)
Definition world_no_target : Toy :=
  toy_set_dirs (without "/data/tgt" (toy_dirs world0)) world0.

(** The secondary root is not there; the target root is. *)
Definition world_no_secondary_root : Toy :=
  toy_set_dirs (without "/data/sec/E1" (without "/data/sec" (toy_dirs world0)))
               world0.

(** The secondary root is there, without a copy of [E1]. *)
Definition world_no_secondary_copy : Toy :=
  toy_set_dirs (without "/data/sec/E1" (toy_dirs world0)) world0.

(** Two finished experiments. *)
Definition world_two : Toy :=
  mkToy 1000000%Q
        ["/data/src/merfish_output"; "/data/tgt"; "/data/sec";
         "/data/src/merfish_analysis/E1"; "/data/src/merfish_output/E1";
         "/data/src/merfish_raw_data/E1"; "/data/sec/E1";
         "/data/src/merfish_analysis/E2"; "/data/src/merfish_output/E2";
         "/data/src/merfish_raw_data/E2"; "/data/sec/E2"]
        [("/data/src/merfish_raw_data/E1/MERLIN_FINISHED", 999400%Q);
         ("/data/src/merfish_raw_data/E2/MERLIN_FINISHED", 999400%Q)]
        [("/data/src/merfish_output", ["E1"; "E2"])]
        [] [] [] [].

(** Two finished experiments; the tree removal of the analysis folder of
    [E1] returns normally and leaves the top directory, and the plain
    removal of that directory is refused. *)
Definition world_lingering : Toy :=
  misbehaving [] [] ["/data/src/merfish_analysis/E1"]
              ["/data/src/merfish_analysis/E1"] world_two.

(** Two finished experiments; the copy of the second category of [E1] is
    refused. *)
Definition world_two_copy_refused : Toy :=
  misbehaving ["/data/src/merfish_output/E1"] [] [] [] world_two.

(** [world0] seen when the marker of [E1] is [age] seconds old. *)
Definition world_aged (age : Q) : Toy :=
  mkToy (999400 + age)%Q (toy_dirs world0) (toy_files world0)
        (toy_listings world0) [] [] [] [].

(** [world0] before the marker of [E1] is written. *)
Definition world_unfinished : Toy :=
  mkToy (toy_clock world0) (toy_dirs world0) [] (toy_listings world0)
        [] [] [] [].

(** The runs with both flags on in the last two worlds. *)
Definition start_lingering : State Toy := start world_lingering true true.

Definition start_two_copy_refused : State Toy :=
  start world_two_copy_refused true true.

(** The states some of these runs end in. *)
Definition after_copy_refused : State Toy :=
  Eval vm_compute in
    snd (handle_single_experiment "E1" (start world_copy_refused true true)).

Definition after_simulation : State Toy :=
  Eval vm_compute in
    snd (handle_single_experiment "E1" (start world0 false false)).

Definition after_analysis_deleted : State Toy :=
  Eval vm_compute in
    snd (delete_loop "E1" ["analysis"]
           (add_TRANSFERRED "E1"
              (add_call (Delete_experiment "E1")
                        (start world_rmtree_refused true true)))).

Definition after_output_refused : State Toy :=
  Eval vm_compute in
    snd (delete_directory "/data/src/merfish_output/E1" after_analysis_deleted).

Definition after_categories_deleted : State Toy :=
  Eval vm_compute in
    snd (delete_loop "E1" SUFFIX
           (add_TRANSFERRED "E1"
              (add_call (Delete_experiment "E1")
                        (start world_no_secondary_copy true true)))).

Definition after_lingering : State Toy :=
  Eval vm_compute in
    snd (delete_directory "/data/src/merfish_analysis/E1" start_lingering).

Definition after_success : State Toy :=
  Eval vm_compute in
    snd (handle_single_experiment "E1" (start world0 true true)).

(** The same file system when the marker goes away between the check of
    line 93 and the reading of line 96: [os.path.isfile] has answered, and
    [os.path.getmtime] finds no file. *)
Definition racy_os : OS Toy := {|
  os_path_exists := toy_exists;
  os_path_isfile := fun p w => mem p (map fst (toy_files w));
  os_path_getmtime := fun _ _ =>
    inl (mkExn "FileNotFoundError" "(2, 'No such file or directory')");
  time_time := toy_time;
  os_listdir := toy_listdir;
  shutil_copytree := toy_copytree;
  shutil_rmtree := toy_rmtree;
  os_rmdir := toy_rmdir;
  smtp_session := fun _ _ _ _ _ w => (None, w)
|}.

(** [world0] with the listing directory gone. *)
Definition world_no_listing : Toy :=
  mkToy (toy_clock world0) (toy_dirs world0) (toy_files world0) []
        [] [] [] [].

Definition after_full_run : State Toy :=
  Eval vm_compute in snd (process_experiments (start world0 true true)).

Definition after_real_deletion : State Toy :=
  Eval vm_compute in
    snd (delete_directory "/data/src/merfish_analysis/E1"
           (start world0 true true)).

(** ** Vocabulary of the properties *)

(** [f"{root}/merfish_{sfx}/{exp}"]. *)
Definition category_dir (root sfx exp : string) : string :=
  root ++ "/merfish_" ++ sfx ++ "/" ++ exp.

(** Two of the messages appended to [ERRORS] (lines 193-194 and 157). *)
Definition copy_error (src exp : string) (err : Exn) : string :=
  "Could not copy " ++ src ++ "/" ++ exp ++ nl
  ++ TEMPLATE (exn_type err) (exn_args err).

Definition incomplete_error (exp : string) : string :=
  "Deletion for " ++ exp ++ " is incomplete".

Section Vocabulary.

Context {World : Type} {os : OS World}.

Local Open Scope list_scope.

(** The marker file of an experiment and its age in whole seconds, as
    line 98 computes it at the next reading of the clock; there is none
    when the modification time cannot be read. *)
Definition sentinel_of (exp : string) (s : State World) : string :=
  (source (CONFIG s) ++ "/merfish_raw_data/" ++ exp ++ "/MERLIN_FINISHED")%string.

Definition age_of (exp : string) (s : State World) : option Z :=
  match os_path_getmtime (sentinel_of exp s) (fs s) with
  | inr modtime =>
      Some (int_of_float (time_time (ticks s) (fs s) - modtime)%Q)
  | inl _ => None
  end.

(** The configuration file supplying [limit] as its minimum age. *)
Definition supply_minimum_age (limit : option Z) (s : State World)
  : State World :=
  set_CONFIG (mkConfig (source (CONFIG s)) (target (CONFIG s))
                       (secondary (CONFIG s)) (sender (CONFIG s))
                       (receivers (CONFIG s)) (mail_server (CONFIG s)) limit) s.

(** The three gates of [handle_single_experiment] before the copy loop
    (lines 167-180) let the experiment through. *)
Definition reaches_transfer (exp : string) (s : State World) : Prop :=
  os_path_exists (secondary (CONFIG s)) (fs s) = true
  /\ (forall sfx, In sfx SUFFIX ->
        os_path_exists (category_dir (source (CONFIG s)) sfx exp) (fs s) = true)
  /\ os_path_isfile (sentinel_of exp s) (fs s) = true
  /\ exists age, age_of exp s = Some age /\ 300 < age.

Definition is_copy (c : Call) : bool :=
  match c with Copytree _ _ _ => true | _ => false end.

Definition is_removal (c : Call) : bool :=
  match c with
  | Delete_directory _ | Rmtree _ _ | Rmdir _ _ => true
  | _ => false
  end.

(** The copy of one category, completed without an exception. *)
Definition copied (src_root tgt_root exp sfx : string) : Call :=
  Copytree (category_dir src_root sfx exp) (category_dir tgt_root sfx exp) None.

(** The state in which the copy loop starts: line 178 has logged the name,
    line 97 has stored the threshold and line 98 has read the clock. *)
Definition at_transfer (exp : string) (s : State World) : State World :=
  add_tick (set_CONFIG (set_minimum_age 300 (CONFIG s))
                       (add_LOGGER (mkLog info exp []) s)).

(** What follows the gates, lines 181-197. *)
Definition transfer_then_delete (exp : string) : M unit :=
  bind (gets (fun s => source (CONFIG s))) (fun src_base =>
  bind (copy_loop exp src_base SUFFIX) (fun ok_to_delete =>
  if ok_to_delete then delete_experiment exp else ret tt)).

(** A call of the deletion phase on the directory [p]. *)
Definition removal_of (p : string) (c : Call) : Prop :=
  match c with
  | Delete_directory q | Rmtree q _ | Rmdir q _ => q = p
  | _ => False
  end.

(** A call of the deletion phase on the directory of one of the
    categories [sfxs]. *)
Definition category_removal (root exp : string) (sfxs : list string)
           (c : Call) : Prop :=
  exists sfx, In sfx sfxs /\ removal_of (category_dir root sfx exp) c.

(** The state in which [delete_experiment] starts its loop (lines
    142-143). *)
Definition entered (exp : string) (s : State World) : State World :=
  add_TRANSFERRED exp (add_call (Delete_experiment exp) s).

(** A stage of [delete_experiment] fails, leaving the state [s2]: a
    category whose [delete_directory] returns [False] after the earlier
    ones returned [True]; or, all three having returned [True], a secondary
    path that does not exist (line 151) or whose [delete_directory] returns
    [False] (line 155). *)
Inductive deletion_stage_fails (exp : string) (s : State World)
  : State World -> Prop :=
| category_fails (pre post : list string) (sfx : string) (s1 s2 : State World) :
    SUFFIX = pre ++ sfx :: post ->
    delete_loop exp pre (entered exp s) = (Return true, s1) ->
    delete_directory (category_dir (source (CONFIG s1)) sfx exp) s1
      = (Return false, s2) ->
    deletion_stage_fails exp s s2
| secondary_missing (s1 : State World) :
    delete_loop exp SUFFIX (entered exp s) = (Return true, s1) ->
    os_path_exists (secondary (CONFIG s1) ++ "/" ++ exp)%string (fs s1) = false ->
    deletion_stage_fails exp s
      (add_LOGGER (mkLog warning "Secondary delete path %s does not exist"
                         [Str (secondary (CONFIG s1) ++ "/" ++ exp)%string]) s1)
| secondary_fails (s1 s2 : State World) :
    delete_loop exp SUFFIX (entered exp s) = (Return true, s1) ->
    os_path_exists (secondary (CONFIG s1) ++ "/" ++ exp)%string (fs s1) = true ->
    delete_directory (secondary (CONFIG s1) ++ "/" ++ exp)%string s1
      = (Return false, s2) ->
    deletion_stage_fails exp s s2.

(** The three ways [handle_single_experiment] can end, read off the new
    calls and the report lists: the experiment is stopped at a gate, the
    handler returning or the exception of [os.path.getmtime] leaving it; a
    copy raises, after the copies of the categories [pre] before it; or
    the deletion phase is entered, after all three copies or none. *)
Inductive handling (exp : string) (s : State World) (o : Outcome unit)
          (s' : State World) : Prop :=
| stopped_at_gate :
    ~ reaches_transfer exp s ->
    o = Return tt
    \/ (exists err,
          o = Raise err
          /\ os_path_getmtime (sentinel_of exp s) (fs s) = inl err) ->
    calls s' = calls s -> fs s' = fs s ->
    TRANSFERRED s' = TRANSFERRED s -> DELETED s' = DELETED s ->
    handling exp s o s'
| copy_failed (pre post : list string) (sfx : string) (err : Exn) :
    reaches_transfer exp s ->
    TRANSFER (ARG s) = true ->
    SUFFIX = pre ++ sfx :: post ->
    o = Return tt ->
    calls s' = calls s
      ++ map (copied (source (CONFIG s)) (target (CONFIG s)) exp) pre
      ++ [Copytree (category_dir (source (CONFIG s)) sfx exp)
                   (category_dir (target (CONFIG s)) sfx exp) (Some err)] ->
    ERRORS s' = ERRORS s
      ++ [copy_error (category_dir (source (CONFIG s)) sfx exp) exp err] ->
    TRANSFERRED s' = TRANSFERRED s -> DELETED s' = DELETED s ->
    handling exp s o s'
| deletion_entered (removals : list Call) :
    reaches_transfer exp s ->
    o = Return tt \/ o = Raise NameError_ERROR ->
    calls s' = calls s
      ++ (if TRANSFER (ARG s)
          then map (copied (source (CONFIG s)) (target (CONFIG s)) exp) SUFFIX
          else [])
      ++ Delete_experiment exp :: removals ->
    Forall (fun c => is_removal c = true) removals ->
    TRANSFERRED s' = TRANSFERRED s ++ [exp] ->
    handling exp s o s'.

(** A list that only gained entries at its end. *)
Definition grows {A : Type} (l l' : list A) : Prop :=
  exists more, l' = l ++ more.

(** What a step of the script may do to the globals: the flags stay, the
    configuration stays or has its minimum age set to 300, and the report
    lists, the log and the trace of calls only gain entries. *)
Definition extends (s s' : State World) : Prop :=
  ARG s' = ARG s
  /\ (CONFIG s' = CONFIG s \/ CONFIG s' = set_minimum_age 300 (CONFIG s))
  /\ grows (ERRORS s) (ERRORS s')
  /\ grows (DELETED s) (DELETED s')
  /\ grows (TRANSFERRED s) (TRANSFERRED s')
  /\ grows (LOGGER s) (LOGGER s')
  /\ grows (calls s) (calls s').

Definition keeps {A : Type} (m : M A) : Prop :=
  forall s, extends s (snd (m s)).

(** The calls made between two states all satisfy [p]. *)
Definition calls_between (p : Call -> bool) (s s' : State World) : Prop :=
  exists new, calls s' = calls s ++ new /\ Forall (fun c => p c = true) new.

Definition is_mail (c : Call) : bool :=
  match c with Sendmail _ _ => true | _ => false end.

Definition no_mail (c : Call) : bool := negb (is_mail c).

(** Neither [shutil.rmtree] nor [os.rmdir]. *)
Definition no_os_removal (c : Call) : bool :=
  match c with Rmtree _ _ | Rmdir _ _ => false | _ => true end.

(** What [delete_directory] does to the state when the delete flag is off
    (lines 130-132), and the same for the categories [sfxs] in turn. *)
Definition noted_deleted (base : string) (s : State World) : State World :=
  add_DELETED base
    (add_LOGGER (mkLog warning "Deleted %s" [Str base])
       (add_call (Delete_directory base) s)).

Definition noted_all (root exp : string) (sfxs : list string)
           (s : State World) : State World :=
  fold_left (fun st sfx => noted_deleted (category_dir root sfx exp) st) sfxs s.

(** The four directories [delete_experiment] goes through, in its order. *)
Definition deletion_paths (exp : string) (s : State World) : list string :=
  map (fun sfx => category_dir (source (CONFIG s)) sfx exp) SUFFIX
  ++ [(secondary (CONFIG s) ++ "/" ++ exp)%string].

(** The calls [delete_directory] makes after noting its entry: none with
    the delete flag off; else the tree removal, followed by the plain
    removal when the tree removal raised nothing and the directory is
    still there. *)
Definition removal_calls (base : string) (s : State World) : list Call :=
  if DELETE (ARG s) then
    let (r, w) := shutil_rmtree base (fs s) in
    Rmtree base r
    :: match r with
       | Some _ => []
       | None =>
           if os_path_exists base w
           then [Rmdir base (fst (os_rmdir base w))]
           else []
       end
  else [].

(** The exceptions no handler of the script catches: the [NameError] of
    line 129 and whatever [os.path.getmtime] raises at line 96. *)
Definition uncaught (e : Exn) : Prop :=
  e = NameError_ERROR \/ exists path w, os_path_getmtime path w = inl e.

(** The first two gates of the handler let the experiment through. *)
Definition visible (exp : string) (s : State World) : Prop :=
  os_path_exists (secondary (CONFIG s)) (fs s) = true
  /\ forall sfx, In sfx SUFFIX ->
       os_path_exists (category_dir (source (CONFIG s)) sfx exp) (fs s) = true.

(** The message of line 169. *)
Definition target_error (s : State World) : string :=
  ("Could not find target path " ++ secondary (CONFIG s))%string.

(** The state in which the handler of each entry of a listing has run, one
    after the other, whatever the outcome of each. *)
Definition handled_in_turn (dirs : list string) (s : State World)
  : State World :=
  fold_left (fun st edir => snd (handle_single_experiment edir st)) dirs s.

End Vocabulary.

(** * Properties *)

Section Properties.

Context {World : Type} {os : OS World}.

Local Open Scope list_scope.

Implicit Types (s : State World) (exp sfx : string).

(** Symbolic execution: unfold the monad and the accessors, leave strings
    and operating-system calls alone. *)
Ltac run :=
  cbv beta iota zeta delta
      [bind ret raise sys_exit gets modify ERRORS_append DELETED_append
       TRANSFERRED_append LOGGER_log enter exists_ isfile getmtime time
       listdir try_os copytree rmtree rmdir] in *;
  cbn [fs ARG CONFIG ERRORS DELETED TRANSFERRED LOGGER calls
       set_fs set_CONFIG add_ERRORS add_DELETED add_TRANSFERRED add_LOGGER
       add_call add_tick ticks set_minimum_age supply_minimum_age entered
       at_transfer
       source target secondary minimum_age negb orb fst snd] in *.


(** *** The completeness check *)


Lemma experiment_complete_eq exp s :
  experiment_complete exp s =
  if os_path_isfile (sentinel_of exp s) (fs s) then
    match os_path_getmtime (sentinel_of exp s) (fs s) with
    | inl err => (Raise err, s)
    | inr modtime =>
        let age := int_of_float (time_time (ticks s) (fs s) - modtime)%Q in
        let s1 := add_tick (set_CONFIG (set_minimum_age 300 (CONFIG s)) s) in
        if age <=? 300 then
          (Return false,
           add_LOGGER (mkLog warning "%s is only %s old"
                             [Str exp; Timedelta age]) s1)
        else (Return true, s1)
    end
  else
    (Return false, add_LOGGER (mkLog warning "%s is in process" [Str exp]) s).
Proof.
  unfold experiment_complete, sentinel_of. run.
  destruct (os_path_isfile _ (fs s)); run; [|reflexivity].
  destruct (os_path_getmtime _ (fs s)) as [err|modtime]; run; [reflexivity|].
  change (5 * 60) with 300. cbv zeta.
  destruct (_ <=? 300); reflexivity.
Qed.


(** *** The gates *)

Lemma missing_loop_eq sfxs : forall exp (missing : bool) s,
  missing_loop exp sfxs missing s =
  (Return (missing
           || existsb (fun sfx =>
                negb (os_path_exists
                        (category_dir (source (CONFIG s)) sfx exp) (fs s)))
              sfxs), s).
Proof.
  induction sfxs as [|sfx rest IH]; intros exp missing s.
  - cbn [missing_loop existsb]. unfold ret. now rewrite orb_false_r.
  - cbn [missing_loop existsb]. run. rewrite IH. unfold category_dir.
    destruct (os_path_exists _ (fs s)), missing; reflexivity.
Qed.

Lemma all_present_dec exp s :
  existsb (fun sfx =>
     negb (os_path_exists (category_dir (source (CONFIG s)) sfx exp) (fs s)))
    SUFFIX = false <->
  (forall sfx, In sfx SUFFIX ->
     os_path_exists (category_dir (source (CONFIG s)) sfx exp) (fs s) = true).
Proof.
  split.
  - intros H sfx Hin.
    destruct (os_path_exists _ (fs s)) eqn:E; [reflexivity|].
    assert (X : existsb (fun sfx =>
      negb (os_path_exists (category_dir (source (CONFIG s)) sfx exp) (fs s)))
      SUFFIX = true).
    { apply existsb_exists. exists sfx. split; [exact Hin|]. now rewrite E. }
    congruence.
  - intros H. destruct (existsb _ SUFFIX) eqn:E; [|reflexivity].
    apply existsb_exists in E. destruct E as (sfx & Hin & E).
    rewrite (H sfx Hin) in E. discriminate.
Qed.

Lemma handle_single_experiment_eq exp s :
  handle_single_experiment exp s =
  if negb (os_path_exists (secondary (CONFIG s)) (fs s)) then
    (Return tt, add_ERRORS (target_error s) s)
  else if existsb (fun sfx =>
            negb (os_path_exists (category_dir (source (CONFIG s)) sfx exp)
                                 (fs s))) SUFFIX then
    (Return tt,
     add_LOGGER (mkLog debug "%s is not in the required subfolders" [Str exp]) s)
  else if negb (os_path_isfile (sentinel_of exp s) (fs s)) then
    (Return tt,
     add_LOGGER (mkLog warning "%s is in process" [Str exp])
                (add_LOGGER (mkLog info exp []) s))
  else
    match os_path_getmtime (sentinel_of exp s) (fs s) with
    | inl err => (Raise err, add_LOGGER (mkLog info exp []) s)
    | inr modtime =>
        let age := int_of_float (time_time (ticks s) (fs s) - modtime)%Q in
        if age <=? 300 then
          (Return tt,
           add_LOGGER (mkLog warning "%s is only %s old"
                             [Str exp; Timedelta age])
                      (at_transfer exp s))
        else transfer_then_delete exp (at_transfer exp s)
    end.
Proof.
  unfold handle_single_experiment, transfer_then_delete, target_error. run.
  destruct (os_path_exists (secondary (CONFIG s)) (fs s)); run;
    [|reflexivity].
  rewrite missing_loop_eq. cbn [orb].
  destruct (existsb _ SUFFIX); run; [reflexivity|].
  rewrite experiment_complete_eq.
  change (sentinel_of exp (add_LOGGER _ s)) with (sentinel_of exp s).
  run. destruct (os_path_isfile _ (fs s)); run; [|reflexivity].
  destruct (os_path_getmtime _ (fs s)) as [err|modtime]; [reflexivity|].
  cbv zeta. destruct (_ <=? 300); reflexivity.
Qed.

Lemma handle_reaching exp s :
  reaches_transfer exp s ->
  handle_single_experiment exp s = transfer_then_delete exp (at_transfer exp s).
Proof.
  intros (Hsec & Hall & Hfile & age & Hage & Hold).
  rewrite handle_single_experiment_eq, Hsec, Hfile.
  apply all_present_dec in Hall. rewrite Hall. cbn [negb].
  unfold age_of in Hage.
  destruct (os_path_getmtime _ (fs s)) as [err|modtime]; [discriminate|].
  injection Hage as <-. cbv zeta.
  destruct (Z.leb_spec
              (int_of_float (time_time (ticks s) (fs s) - modtime)%Q) 300);
    [lia|reflexivity].
Qed.

Lemma handle_not_reaching exp s :
  ~ reaches_transfer exp s ->
  exists o s',
    handle_single_experiment exp s = (o, s')
    /\ (o = Return tt
        \/ exists err,
             o = Raise err
             /\ os_path_getmtime (sentinel_of exp s) (fs s) = inl err)
    /\ fs s' = fs s /\ calls s' = calls s
    /\ TRANSFERRED s' = TRANSFERRED s /\ DELETED s' = DELETED s.
Proof.
  intros Hnot. rewrite handle_single_experiment_eq.
  destruct (os_path_exists (secondary (CONFIG s)) (fs s)) eqn:Hsec;
    cbn [negb]; [|eexists _, _; split; [reflexivity|]; auto 10].
  destruct (existsb _ SUFFIX) eqn:Hall;
    [eexists _, _; split; [reflexivity|]; auto 10|].
  pose proof (proj1 (all_present_dec exp s) Hall) as Hpresent.
  destruct (os_path_isfile _ (fs s)) eqn:Hfile;
    cbn [negb]; [|eexists _, _; split; [reflexivity|]; auto 10].
  destruct (os_path_getmtime _ (fs s)) as [err|modtime] eqn:Hmtime.
  - eexists _, _. split; [reflexivity|]. split; [right; eauto|auto].
  - cbv zeta.
    destruct (Z.leb_spec
                (int_of_float (time_time (ticks s) (fs s) - modtime)%Q) 300).
    + eexists _, _. split; [reflexivity|]. auto 10.
    + exfalso. apply Hnot. repeat split; try assumption.
      eexists. unfold age_of. rewrite Hmtime. split; [reflexivity|assumption].
Qed.

(** C4. For every experiment for which at least one of the three category
    folders does not exist under the source root, once the initial path
    gate has let it through, the handler returns having made no copy and no
    removal call, with the file system as it was and nothing appended to
    the transferred, deleted or errors lists: the only trace is one debug
    record. *)
Theorem C4_missing_category_is_skipped_silently exp sfx s :
  os_path_exists (secondary (CONFIG s)) (fs s) = true ->
  In sfx SUFFIX ->
  os_path_exists (category_dir (source (CONFIG s)) sfx exp) (fs s) = false ->
  exists s',
    handle_single_experiment exp s = (Return tt, s')
    /\ s' = add_LOGGER (mkLog debug "%s is not in the required subfolders"
                              [Str exp]) s
    /\ calls s' = calls s /\ fs s' = fs s
    /\ TRANSFERRED s' = TRANSFERRED s /\ DELETED s' = DELETED s
    /\ ERRORS s' = ERRORS s.
Proof.
  intros Hsec Hin Hmissing.
  unfold handle_single_experiment. run. rewrite Hsec. run.
  rewrite missing_loop_eq. cbn [orb].
  destruct (existsb _ SUFFIX) eqn:Hall.
  - run. eexists. repeat split; reflexivity.
  - rewrite (proj1 (all_present_dec exp s) Hall sfx Hin) in Hmissing.
    discriminate.
Qed.

(** *** The copy loop *)

Lemma copy_loop_spec sfxs : forall exp base s o s',
  copy_loop exp base sfxs s = (o, s') ->
  ARG s' = ARG s /\ CONFIG s' = CONFIG s
  /\ TRANSFERRED s' = TRANSFERRED s /\ DELETED s' = DELETED s
  /\ ((o = Return true /\ ERRORS s' = ERRORS s
       /\ calls s' = calls s ++
            (if TRANSFER (ARG s)
             then map (copied base (target (CONFIG s)) exp) sfxs else []))
      \/ (o = Return false /\ TRANSFER (ARG s) = true
          /\ exists pre sfx post err,
               sfxs = pre ++ sfx :: post
               /\ calls s' = calls s
                    ++ map (copied base (target (CONFIG s)) exp) pre
                    ++ [Copytree (category_dir base sfx exp)
                                 (category_dir (target (CONFIG s)) sfx exp)
                                 (Some err)]
               /\ ERRORS s' = ERRORS s
                    ++ [copy_error (category_dir base sfx exp) exp err])).
Proof.
  induction sfxs as [|sfx rest IH]; intros exp base s o s' H.
  - cbn [copy_loop] in H. run. injection H as <- <-.
    repeat split. left. repeat split.
    destruct (TRANSFER (ARG s)); now rewrite app_nil_r.
  - cbn [copy_loop] in H. run.
    destruct (TRANSFER (ARG s)) eqn:T; run.
    + destruct (shutil_copytree _ _ (fs s)) as [[err|] w] eqn:E; run.
      * injection H as <- <-. run. repeat split. right. repeat split.
        exists [], sfx, rest, err. repeat split.
      * apply IH in H. run.
        destruct H as (HA & HC & HT & HD & H). repeat split; try assumption.
        rewrite T in H.
        destruct H as [(-> & HE & Hc) | (-> & _ & pre & x & post & err & -> & Hc & HE)].
        -- left. repeat split; [assumption|].
           rewrite Hc, <- app_assoc. reflexivity.
        -- right. repeat split.
           exists (sfx :: pre), x, post, err. repeat split; [|assumption].
           rewrite Hc, <- app_assoc. reflexivity.
    + apply IH in H. run.
      destruct H as (HA & HC & HT & HD & H). repeat split; try assumption.
      rewrite T in H.
      destruct H as [(-> & HE & Hc) | (_ & Habs & _)]; [|discriminate].
      left. repeat split; assumption.
Qed.

(** *** The deletion phase *)

Lemma delete_directory_spec base s o s' :
  delete_directory base s = (o, s') ->
  ARG s' = ARG s /\ CONFIG s' = CONFIG s /\ TRANSFERRED s' = TRANSFERRED s
  /\ (exists new, calls s' = calls s ++ new /\ Forall (removal_of base) new)
  /\ ((exists ok, o = Return ok) \/ o = Raise NameError_ERROR).
Proof.
  unfold delete_directory. intros H. run.
  destruct (DELETE (ARG s)); run.
  - destruct (shutil_rmtree base (fs s)) as [[err|] w] eqn:E; run.
    + injection H as <- <-. run. repeat split; [|left; eauto].
      exists [Delete_directory base; Rmtree base (Some err)].
      rewrite <- app_assoc. split; [reflexivity|]. repeat constructor.
    + destruct (os_path_exists base w) eqn:X; run.
      * destruct (os_rmdir base w) as [[err|] w'] eqn:E'; run;
          (destruct (os_path_exists base w') eqn:X'; run;
           injection H as <- <-; run;
           (repeat split; [|solve [left; eauto | right; reflexivity]]);
           eexists; rewrite <- !app_assoc;
           (split; [reflexivity|]); repeat constructor).
      * rewrite X in H. injection H as <- <-. run.
        repeat split; [|left; eauto].
        eexists; rewrite <- !app_assoc.
        split; [reflexivity|]. repeat constructor.
  - injection H as <- <-. run. repeat split; [|left; eauto].
    exists [Delete_directory base]. split; [reflexivity|]. repeat constructor.
Qed.

Lemma removal_of_is_removal p c : removal_of p c -> is_removal c = true.
Proof. destruct c; cbn; intros H; (reflexivity || contradiction). Qed.

Lemma delete_loop_spec sfxs : forall exp s o s',
  delete_loop exp sfxs s = (o, s') ->
  ARG s' = ARG s /\ CONFIG s' = CONFIG s /\ TRANSFERRED s' = TRANSFERRED s
  /\ (exists new, calls s' = calls s ++ new
        /\ Forall (category_removal (source (CONFIG s)) exp sfxs) new)
  /\ ((exists ok, o = Return ok) \/ o = Raise NameError_ERROR).
Proof.
  induction sfxs as [|sfx rest IH]; intros exp s o s' H.
  - cbn [delete_loop] in H. run. injection H as <- <-.
    do 3 (split; [reflexivity|]). split; [|left; eauto].
    exists []. now rewrite app_nil_r.
  - cbn [delete_loop] in H. run.
    destruct (delete_directory _ s) as [[ok|e|c] s1] eqn:D;
      apply delete_directory_spec in D;
      destruct D as (HA & HC & HT & (new & Hc & Hnew) & Ho).
    + assert (Hhead : Forall (category_removal (source (CONFIG s)) exp
                                               (sfx :: rest)) new).
      { eapply Forall_impl; [|exact Hnew]. intros c Hc'.
        exists sfx. split; [now left|exact Hc']. }
      destruct ok; run.
      * apply IH in H.
        destruct H as (HA' & HC' & HT' & (new' & Hc' & Hnew') & Ho').
        do 3 (split; [congruence|]). split; [|exact Ho'].
        exists (new ++ new'). split.
        -- rewrite Hc', Hc, app_assoc. reflexivity.
        -- apply Forall_app. split; [exact Hhead|].
           eapply Forall_impl; [|exact Hnew']. intros c (x & Hin & Hx).
           exists x. split; [now right|]. now rewrite <- HC.
      * injection H as <- <-.
        do 3 (split; [congruence|]). split; [|left; eauto].
        exists new. split; assumption.
    + injection H as <- <-.
      do 3 (split; [congruence|]). split.
      * exists new. split; [assumption|].
        eapply Forall_impl; [|exact Hnew]. intros c Hc'.
        exists sfx. split; [now left|exact Hc'].
      * destruct Ho as [[ok Ho]|Ho]; [discriminate|]. right. exact Ho.
    + destruct Ho as [[ok Ho]|Ho]; discriminate.
Qed.

Lemma delete_loop_app pre : forall exp rest s,
  delete_loop exp (pre ++ rest) s =
  match delete_loop exp pre s with
  | (Return true, s1) => delete_loop exp rest s1
  | r => r
  end.
Proof.
  induction pre as [|sfx pre IH]; intros exp rest s.
  - reflexivity.
  - cbn [app delete_loop]. run.
    destruct (delete_directory _ s) as [[[|]|e|c] s1]; run;
      [apply IH|reflexivity..].
Qed.

Lemma delete_experiment_spec exp s o s' :
  delete_experiment exp s = (o, s') ->
  ARG s' = ARG s /\ CONFIG s' = CONFIG s
  /\ TRANSFERRED s' = TRANSFERRED s ++ [exp]
  /\ (exists new, calls s' = calls s ++ Delete_experiment exp :: new
        /\ Forall (fun c => is_removal c = true) new)
  /\ (o = Return tt \/ o = Raise NameError_ERROR).
Proof.
  unfold delete_experiment. intros H. run.
  destruct (delete_loop exp SUFFIX _) as [[ok|e|c] s1] eqn:L;
    apply delete_loop_spec in L; run;
    destruct L as (HA & HC & HT & (new & Hc & Hnew) & Ho);
    [| |destruct Ho as [[ok Ho]|Ho]; discriminate].
  - assert (Hnew1 : Forall (fun c => is_removal c = true) new).
    { eapply Forall_impl; [|exact Hnew]. intros c (x & _ & Hx).
      eapply removal_of_is_removal, Hx. }
    rewrite <- app_assoc in Hc. cbn [app] in Hc.
    destruct ok; run.
    + destruct (os_path_exists _ (fs s1)) eqn:X; run.
      * destruct (delete_directory _ s1) as [[ok|e|c] s2] eqn:D;
          apply delete_directory_spec in D;
          destruct D as (HA' & HC' & HT' & (new' & Hc' & Hnew') & Ho');
          [| |destruct Ho' as [[ok Ho']|Ho']; discriminate].
        -- assert (Hcalls : calls s2
                    = calls s ++ Delete_experiment exp :: new ++ new')
             by (rewrite Hc', Hc, <- app_assoc; reflexivity).
           assert (Hall : Forall (fun c => is_removal c = true) (new ++ new')).
           { apply Forall_app. split; [exact Hnew1|].
             eapply Forall_impl; [|exact Hnew']. intros c Hx.
             eapply removal_of_is_removal, Hx. }
           destruct ok; run; injection H as <- <-; run;
             (do 3 (split; [congruence|])); (split; [|now left]);
             exists (new ++ new'); split; assumption.
        -- injection H as <- <-.
           do 3 (split; [congruence|]). split.
           ++ exists (new ++ new'). split.
              ** rewrite Hc', Hc, <- app_assoc. reflexivity.
              ** apply Forall_app. split; [exact Hnew1|].
                 eapply Forall_impl; [|exact Hnew']. intros c Hx.
                 eapply removal_of_is_removal, Hx.
           ++ destruct Ho' as [[ok Ho']|Ho']; [discriminate|].
              right. now injection Ho' as ->.
      * injection H as <- <-. run.
        do 3 (split; [congruence|]). split; [|now left].
        exists new. split; assumption.
    + injection H as <- <-. run.
      do 3 (split; [congruence|]). split; [|now left].
      exists new. split; assumption.
  - injection H as <- <-.
    rewrite <- app_assoc in Hc. cbn [app] in Hc.
    do 3 (split; [congruence|]). split.
    + exists new. split; [assumption|].
      eapply Forall_impl; [|exact Hnew]. intros c (x & _ & Hx).
      eapply removal_of_is_removal, Hx.
    + destruct Ho as [[ok Ho]|Ho]; [discriminate|].
      right. now injection Ho as ->.
Qed.

(** *** The handler of one experiment *)

Lemma reaches_transfer_dec exp s :
  reaches_transfer exp s \/ ~ reaches_transfer exp s.
Proof.
  unfold reaches_transfer.
  destruct (os_path_exists (secondary (CONFIG s)) (fs s));
    [|right; intros (H & _); discriminate].
  destruct (existsb (fun sfx =>
     negb (os_path_exists (category_dir (source (CONFIG s)) sfx exp) (fs s)))
     SUFFIX) eqn:Hall.
  - right. intros (_ & H & _). apply all_present_dec in H. congruence.
  - pose proof (proj1 (all_present_dec exp s) Hall) as Hpresent.
    destruct (os_path_isfile (sentinel_of exp s) (fs s));
      [|right; intros (_ & _ & H & _); discriminate].
    destruct (age_of exp s) as [age|];
      [|right; intros (_ & _ & _ & a & Ha & _); discriminate].
    destruct (Z.ltb_spec 300 age).
    + left. repeat split; try assumption. eauto.
    + right. intros (_ & _ & _ & a & Ha & H'). injection Ha as <-. lia.
Qed.

Lemma handle_cases exp s o s' :
  handle_single_experiment exp s = (o, s') -> handling exp s o s'.
Proof.
  intros H. destruct (reaches_transfer_dec exp s) as [Hreach|Hnot].
  - rewrite (handle_reaching exp s Hreach) in H.
    unfold transfer_then_delete in H. run.
    destruct (copy_loop exp (source (CONFIG s)) SUFFIX _)
      as [[ok|e|c] s1] eqn:Hcopy;
      apply copy_loop_spec in Hcopy; run;
      destruct Hcopy as (HA & HC & HT & HD & Hcopy);
      (destruct Hcopy as [(Ho & HE & Hc)
                         |(Ho & Ht & pre & sfx & post & err & Hs & Hc & HE)]);
      try discriminate.
    + injection Ho as ->.
      apply delete_experiment_spec in H.
      destruct H as (HA' & HC' & HT' & (new & Hc' & Hnew) & Ho').
      apply deletion_entered with (removals := new); try assumption.
      * rewrite Hc', Hc, <- app_assoc. reflexivity.
      * congruence.
    + injection Ho as ->. injection H as <- <-.
      eapply copy_failed; try eassumption; reflexivity.
  - destruct (handle_not_reaching exp s Hnot)
      as (o1 & s1 & H1 & Ho & Hf & Hc & HT & HD).
    rewrite H1 in H. injection H as <- <-.
    apply stopped_at_gate; auto.
Qed.

(** *** Lists of calls *)

Lemma filter_copies src_root tgt_root exp (sfxs : list string) :
  filter is_copy (map (copied src_root tgt_root exp) sfxs)
  = map (copied src_root tgt_root exp) sfxs.
Proof. induction sfxs as [|x l IH]; cbn; [reflexivity|now rewrite IH]. Qed.

Lemma filter_removals (l : list Call) :
  Forall (fun c => is_removal c = true) l -> filter is_copy l = [].
Proof.
  induction 1 as [|c l Hc _ IH]; [reflexivity|].
  cbn. destruct c; cbn in *; (discriminate || assumption).
Qed.

Lemma removals_hold_no_copy (l : list Call) c :
  Forall (fun c => is_removal c = true) l -> In c l -> is_copy c = false.
Proof.
  intros Hl Hin. rewrite Forall_forall in Hl. specialize (Hl c Hin).
  destruct c; (reflexivity || discriminate).
Qed.

Lemma copies_succeeded src_root tgt_root exp (sfxs : list string) c :
  In c (map (copied src_root tgt_root exp) sfxs) ->
  exists src tgt, c = Copytree src tgt None.
Proof.
  intros Hin. apply in_map_iff in Hin. destruct Hin as (x & <- & _).
  unfold copied. eauto.
Qed.

(** C1. For every experiment, in the calls the handler makes, every call
    of the deletion phase comes with an entry into [delete_experiment], and
    that entry is made only after the copies of all three categories have
    each completed without an exception (transfer on), or after no copy at
    all (transfer off); and when a copy raises, it is the last call made
    for the experiment, preceded only by the completed copies of the
    categories before it: no later category is copied, the error naming the
    exception type and arguments is appended to the errors, and the
    deletion phase is not entered, nothing being deleted. *)
Theorem C1_deletion_only_after_all_copies exp s o s' :
  handle_single_experiment exp s = (o, s') ->
  exists new,
    calls s' = calls s ++ new
    /\ (forall c, In c new -> is_removal c = true ->
                   In (Delete_experiment exp) new)
    /\ (In (Delete_experiment exp) new ->
        filter is_copy new =
        if TRANSFER (ARG s)
        then map (copied (source (CONFIG s)) (target (CONFIG s)) exp) SUFFIX
        else [])
    /\ (forall src tgt err,
          In (Copytree src tgt (Some err)) new ->
          (exists pre sfx post,
              SUFFIX = pre ++ sfx :: post
              /\ src = category_dir (source (CONFIG s)) sfx exp
              /\ new = map (copied (source (CONFIG s)) (target (CONFIG s)) exp)
                           pre
                       ++ [Copytree src tgt (Some err)])
          /\ ERRORS s' = ERRORS s
               ++ [("Could not copy " ++ src ++ "/" ++ exp ++ nl
                    ++ TEMPLATE (exn_type err) (exn_args err))%string]
          /\ ~ In (Delete_experiment exp) new
          /\ DELETED s' = DELETED s
          /\ o = Return tt).
Proof.
  intros H. apply handle_cases in H.
  destruct H as [Hnot Ho Hc Hf HT HD
                |pre post sfx err Hreach Ht Hs Ho Hc HE HT HD
                |removals Hreach Ho Hc Hrem HT].
  - exists []. rewrite app_nil_r. split; [assumption|].
    split; [intros ? []|]. split; [intros []|intros ? ? ? []].
  - eexists. split; [exact Hc|].
    assert (Hnone : ~ In (Delete_experiment exp)
              (map (copied (source (CONFIG s)) (target (CONFIG s)) exp) pre
               ++ [Copytree (category_dir (source (CONFIG s)) sfx exp)
                     (category_dir (target (CONFIG s)) sfx exp) (Some err)])).
    { intros Hin. apply in_app_or in Hin. destruct Hin as [Hin|[Hin|[]]].
      - apply copies_succeeded in Hin. destruct Hin as (? & ? & ?).
        discriminate.
      - discriminate. }
    split.
    { intros c Hin Hrem. exfalso. apply in_app_or in Hin.
      destruct Hin as [Hin|[<-|[]]]; [|discriminate].
      apply copies_succeeded in Hin. destruct Hin as (? & ? & ->).
      discriminate. }
    split; [intros Hin; contradiction|].
    intros src tgt err' Hin. apply in_app_or in Hin.
    destruct Hin as [Hin|[Hin|[]]].
    + apply copies_succeeded in Hin. destruct Hin as (? & ? & ?).
      discriminate.
    + injection Hin as <- <- <-.
      split; [exists pre, sfx, post; repeat split; assumption|].
      repeat split; assumption.
  - eexists. split; [exact Hc|].
    split; [intros _ _ _; apply in_or_app; right; now left|]. split.
    + intros _. rewrite filter_app. cbn [filter is_copy].
      rewrite (filter_removals _ Hrem), app_nil_r.
      destruct (TRANSFER (ARG s)); [apply filter_copies|reflexivity].
    + intros src tgt err Hin. exfalso.
      apply in_app_or in Hin. destruct Hin as [Hin|[Hin|Hin]].
      * destruct (TRANSFER (ARG s)); [|contradiction].
        apply copies_succeeded in Hin. destruct Hin as (? & ? & ?).
        discriminate.
      * discriminate.
      * apply (removals_hold_no_copy _ _ Hrem) in Hin. discriminate.
Qed.

(** C5. For every experiment that passes the three gates while the
    transfer flag is off, the handler makes no copy call for any category,
    and the name of the experiment is appended to the transferred list. *)
Theorem C5_simulated_transfer_is_reported exp s o s' :
  TRANSFER (ARG s) = false ->
  reaches_transfer exp s ->
  handle_single_experiment exp s = (o, s') ->
  exists new,
    calls s' = calls s ++ new
    /\ (forall c, In c new -> is_copy c = false)
    /\ TRANSFERRED s' = TRANSFERRED s ++ [exp].
Proof.
  intros Hoff Hreach H. apply handle_cases in H.
  destruct H as [Hnot Ho Hc Hf HT HD
                |pre post sfx err _ Ht Hs Ho Hc HE HT HD
                |removals _ Ho Hc Hrem HT].
  - contradiction.
  - congruence.
  - rewrite Hoff in Hc. eexists. split; [exact Hc|]. split; [|exact HT].
    intros c [<-|Hin]; [reflexivity|].
    eapply removals_hold_no_copy; eassumption.
Qed.

(** C10. For every experiment, the name is appended to the transferred
    list exactly when the handler enters the deletion phase, and it enters
    it exactly when the experiment has passed the three gates and no copy
    has raised: the handler then ends as [delete_experiment] does, called
    in the state the copy loop left with all copies good, the call is among
    the calls made and the list gains the name; otherwise
    [delete_experiment] is not among the calls and the list is as it was.
    In particular an experiment one of whose copies raises is not recorded
    in it, whatever was copied before. *)
Theorem C10_transferred_iff_deletion_entered exp s o s' :
  handle_single_experiment exp s = (o, s') ->
  exists new,
    calls s' = calls s ++ new
    /\ (In (Delete_experiment exp) new ->
        TRANSFERRED s' = TRANSFERRED s ++ [exp])
    /\ (~ In (Delete_experiment exp) new -> TRANSFERRED s' = TRANSFERRED s)
    /\ (forall src tgt err,
          In (Copytree src tgt (Some err)) new ->
          TRANSFER (ARG s) = true /\ TRANSFERRED s' = TRANSFERRED s)
    /\ (In (Delete_experiment exp) new <->
        reaches_transfer exp s
        /\ forall src tgt err, ~ In (Copytree src tgt (Some err)) new)
    /\ (reaches_transfer exp s ->
        (forall src tgt err, ~ In (Copytree src tgt (Some err)) new) ->
        TRANSFERRED s' = TRANSFERRED s ++ [exp]
        /\ exists s1,
             copy_loop exp (source (CONFIG s)) SUFFIX (at_transfer exp s)
             = (Return true, s1)
             /\ delete_experiment exp s1 = (o, s')).
Proof.
  intros H. pose proof (handle_cases _ _ _ _ H) as Hcase.
  assert (Hgood : forall removals,
            Forall (fun c => is_removal c = true) removals ->
            forall src tgt err,
              ~ In (Copytree src tgt (Some err))
                   ((if TRANSFER (ARG s)
                     then map (copied (source (CONFIG s))
                                      (target (CONFIG s)) exp) SUFFIX
                     else [])
                    ++ Delete_experiment exp :: removals)).
  { intros removals Hrem src tgt err Hin.
    apply in_app_or in Hin. destruct Hin as [Hin|[Hin|Hin]].
    - destruct (TRANSFER (ARG s)); [|contradiction].
      apply copies_succeeded in Hin. destruct Hin as (? & ? & ?).
      discriminate.
    - discriminate.
    - apply (removals_hold_no_copy _ _ Hrem) in Hin. discriminate. }
  destruct Hcase as [Hnot Ho Hc Hf HT HD
                    |pre post sfx err Hreach Ht Hs Ho Hc HE HT HD
                    |removals Hreach Ho Hc Hrem HT].
  - exists []. rewrite app_nil_r. split; [assumption|].
    split; [intros []|]. split; [intros _; assumption|].
    split; [intros ? ? ? []|]. split.
    + split; [intros []|intros (Hreach & _); contradiction].
    + intros Hreach. contradiction.
  - eexists. split; [exact Hc|].
    assert (Hnone : ~ In (Delete_experiment exp)
              (map (copied (source (CONFIG s)) (target (CONFIG s)) exp) pre
               ++ [Copytree (category_dir (source (CONFIG s)) sfx exp)
                     (category_dir (target (CONFIG s)) sfx exp) (Some err)])).
    { intros Hin. apply in_app_or in Hin.
      destruct Hin as [Hin|[Hin|[]]]; [|discriminate].
      apply copies_succeeded in Hin. destruct Hin as (? & ? & ?).
      discriminate. }
    assert (Hbad : (forall src tgt err0,
              ~ In (Copytree src tgt (Some err0))
                   (map (copied (source (CONFIG s)) (target (CONFIG s)) exp)
                        pre
                    ++ [Copytree (category_dir (source (CONFIG s)) sfx exp)
                          (category_dir (target (CONFIG s)) sfx exp)
                          (Some err)])) -> False).
    { intros Hall. eapply Hall. apply in_or_app. right. now left. }
    split; [intros Hin; contradiction|]. split; [auto|]. split; [auto|].
    split.
    + split; [intros Hin; contradiction|intros (_ & Hall); contradiction].
    + intros _ Hall. contradiction.
  - eexists. split; [exact Hc|]. split; [auto|]. split.
    { intros Hnone. exfalso. apply Hnone. apply in_or_app. right. now left. }
    split.
    { intros src tgt err Hin. exfalso. eapply Hgood; eassumption. }
    split.
    + split; [intros _; split; [exact Hreach|apply Hgood, Hrem]|].
      intros _. apply in_or_app. right. now left.
    + intros _ _. split; [exact HT|].
      rewrite (handle_reaching exp s Hreach) in H.
      unfold transfer_then_delete in H. run.
      destruct (copy_loop exp (source (CONFIG s)) SUFFIX _)
        as [[[|]|e|c] s1] eqn:Hcopy;
        pose proof (copy_loop_spec _ _ _ _ _ _ Hcopy)
          as (_ & _ & HT1 & _ & [(Ho1 & _)|(Ho1 & _)]);
        try discriminate.
      * eexists. split; [reflexivity|exact H].
      * injection H as <- <-. run. rewrite HT1 in HT. exfalso.
        apply (f_equal (@length string)) in HT.
        rewrite length_app in HT. cbn in HT. lia.
Qed.

(** *** Failure within the deletion phase *)

Lemma delete_experiment_after_loop exp s :
  delete_experiment exp s =
  match delete_loop exp SUFFIX (entered exp s) with
  | (Return true, s1) =>
      if os_path_exists (secondary (CONFIG s1) ++ "/" ++ exp)%string (fs s1)
      then
        match delete_directory (secondary (CONFIG s1) ++ "/" ++ exp)%string s1
        with
        | (Return true, s2) => (Return tt, s2)
        | (Return false, s2) => (Return tt, add_ERRORS (incomplete_error exp) s2)
        | (Raise e, s2) => (Raise e, s2)
        | (Exit c, s2) => (Exit c, s2)
        end
      else
        (Return tt,
         add_ERRORS (incomplete_error exp)
           (add_LOGGER (mkLog warning "Secondary delete path %s does not exist"
                          [Str (secondary (CONFIG s1) ++ "/" ++ exp)%string])
                       s1))
  | (Return false, s1) => (Return tt, add_ERRORS (incomplete_error exp) s1)
  | (Raise e, s1) => (Raise e, s1)
  | (Exit c, s1) => (Exit c, s1)
  end.
Proof.
  unfold delete_experiment, entered. run.
  destruct (delete_loop exp SUFFIX _) as [[[|]|e|c] s1]; run;
    try reflexivity.
  destruct (os_path_exists _ (fs s1)); run; [|reflexivity].
  destruct (delete_directory _ s1) as [[[|]|e|c] s2]; reflexivity.
Qed.

(** C6. Whenever a stage of the deletion of an experiment fails (the
    [delete_directory] of a category returns [False] after those of the
    earlier categories returned [True], or, after all three, the secondary
    path is absent or its [delete_directory] returns [False]),
    [delete_experiment] returns in the state that stage left, with one more
    entry at the end of the errors, the message that deletion for the
    experiment is incomplete.  Nothing else differs from the state of the
    failure: after a failed category no call is made, so no later category
    is attempted. *)
Theorem C6_deletion_stops_at_first_failure exp s s2 :
  deletion_stage_fails exp s s2 ->
  exists s',
    delete_experiment exp s = (Return tt, s')
    /\ s' = add_ERRORS ("Deletion for " ++ exp ++ " is incomplete")%string s2
    /\ ERRORS s'
       = ERRORS s2 ++ [("Deletion for " ++ exp ++ " is incomplete")%string]
    /\ calls s' = calls s2 /\ fs s' = fs s2 /\ DELETED s' = DELETED s2.
Proof.
  intros Hfail. eexists. split; [|repeat split].
  rewrite delete_experiment_after_loop. unfold incomplete_error.
  destruct Hfail as [pre post sfx s1 s2 Hs Hpre Hdir|s1 Hloop Habsent
                    |s1 s2 Hloop Hpresent Hdir].
  - rewrite Hs, delete_loop_app, Hpre. cbn [delete_loop]. run.
    unfold category_dir in Hdir. rewrite Hdir. reflexivity.
  - rewrite Hloop, Habsent. reflexivity.
  - rewrite Hloop, Hpresent, Hdir. reflexivity.
Qed.

(** C7. If the [delete_directory] of all three categories of an experiment
    returned [True] and the path [secondary/<name>] does not exist when
    line 151 looks for it, [delete_experiment] returns with an error
    appended to the errors, and makes no call after the category loop: the
    removal calls of the experiment are all on the category directories
    under the source root, none is made for the secondary path. *)
Theorem C7_absent_secondary_is_an_error exp s s1 :
  delete_loop exp SUFFIX (entered exp s) = (Return true, s1) ->
  os_path_exists (secondary (CONFIG s1) ++ "/" ++ exp)%string (fs s1) = false ->
  exists s' removals,
    delete_experiment exp s = (Return tt, s')
    /\ ERRORS s'
       = ERRORS s1 ++ [("Deletion for " ++ exp ++ " is incomplete")%string]
    /\ fs s' = fs s1 /\ DELETED s' = DELETED s1
    /\ calls s' = calls s ++ Delete_experiment exp :: removals
    /\ Forall (category_removal (source (CONFIG s)) exp SUFFIX) removals.
Proof.
  intros Hloop Habsent.
  pose proof (delete_loop_spec _ _ _ _ _ Hloop)
    as (_ & _ & _ & (removals & Hc & Hrem) & _).
  unfold entered in Hc, Hrem. run.
  rewrite <- app_assoc in Hc. cbn [app] in Hc.
  eexists _, removals. split.
  { rewrite delete_experiment_after_loop, Hloop, Habsent. reflexivity. }
  run. repeat split; [exact Hc|exact Hrem].
Qed.

(** *** The loop over the listing *)

Lemma handle_outcome exp s o s' :
  handle_single_experiment exp s = (o, s') ->
  o = Return tt \/ o = Raise NameError_ERROR
  \/ exists err,
       o = Raise err /\ os_path_getmtime (sentinel_of exp s) (fs s) = inl err.
Proof.
  intros H. apply handle_cases in H.
  destruct H as [? [Ho|Ho]|? ? ? ? ? ? ? Ho|? ? [Ho|Ho]]; auto.
Qed.


(** *** What the code does where it departs from its description *)

(** The first gate of the handler asks for [CONFIG['secondary']] (line
    167), whatever the target root is: when the secondary root is absent
    the handler records the error and stops. *)
Lemma first_gate_is_on_secondary exp s :
  os_path_exists (secondary (CONFIG s)) (fs s) = false ->
  handle_single_experiment exp s
  = (Return tt,
     add_ERRORS ("Could not find target path " ++ secondary (CONFIG s))%string s).
Proof.
  intros Habsent. unfold handle_single_experiment. run. rewrite Habsent.
  reflexivity.
Qed.

(** In real-delete mode, a directory that is still there after a tree
    removal that raised nothing and after the plain removal, whatever that
    one did, makes [delete_directory] raise [NameError]: line 129 is
    reached, and nothing is appended by it. *)
Lemma lingering_directory_raises base s w1 r w2 :
  DELETE (ARG s) = true ->
  shutil_rmtree base (fs s) = (None, w1) ->
  os_path_exists base w1 = true ->
  os_rmdir base w1 = (r, w2) ->
  os_path_exists base w2 = true ->
  exists s',
    delete_directory base s = (Raise NameError_ERROR, s')
    /\ fs s' = w2 /\ DELETED s' = DELETED s
    /\ ERRORS s' = ERRORS s ++
         match r with
         | Some err => [("Could not rmdir delete " ++ base ++ nl
                         ++ TEMPLATE_of err)%string]
         | None => []
         end.
Proof.
  intros Hdel Htree Hstill Hdir Hstill'.
  unfold delete_directory. run. rewrite Hdel. run. rewrite Htree. run.
  rewrite Hstill. run. rewrite Hdir. run.
  destruct r as [err|]; run; rewrite Hstill'; run;
    (eexists; split; [reflexivity|]); run; repeat split.
  now rewrite app_nil_r.
Qed.

(** The part of the fallback that works: when the plain removal clears the
    directory the tree removal left, [delete_directory] returns [True] and
    records the path as deleted. *)
Lemma fallback_clears_directory base s w1 r w2 :
  DELETE (ARG s) = true ->
  shutil_rmtree base (fs s) = (None, w1) ->
  os_path_exists base w1 = true ->
  os_rmdir base w1 = (r, w2) ->
  os_path_exists base w2 = false ->
  exists s',
    delete_directory base s = (Return true, s')
    /\ fs s' = w2 /\ DELETED s' = DELETED s ++ [base]
    /\ calls s' = calls s
         ++ [Delete_directory base; Rmtree base None; Rmdir base r].
Proof.
  intros Hdel Htree Hstill Hdir Hgone.
  unfold delete_directory. run. rewrite Hdel. run. rewrite Htree. run.
  rewrite Hstill. run. rewrite Hdir. run.
  destruct r as [err|]; run; rewrite Hgone; run;
    (eexists; split; [reflexivity|]); run;
    (do 2 (split; [reflexivity|])); now rewrite <- !app_assoc.
Qed.

(** * Further properties of the script *)

(** *** What a run may change *)

Lemma grows_refl {A : Type} (l : list A) : grows l l.
Proof. exists []. now rewrite app_nil_r. Qed.

Lemma grows_trans {A : Type} (l1 l2 l3 : list A) :
  grows l1 l2 -> grows l2 l3 -> grows l1 l3.
Proof.
  intros (m & ->) (m' & ->). exists (m ++ m'). now rewrite app_assoc.
Qed.

Lemma grows_snoc {A : Type} (l : list A) (x : A) : grows l (l ++ [x]).
Proof. now exists [x]. Qed.

(** A primitive that appends to one list, or stores the threshold. *)
Ltac extends_by_computation :=
  unfold extends; cbn;
  (split; [reflexivity|]);
  (split; [first [left; reflexivity | right; reflexivity]|]);
  repeat (match goal with |- _ /\ _ => split end);
  first [apply grows_refl | apply grows_snoc].

Lemma extends_refl s : extends s s.
Proof. extends_by_computation. Qed.

Lemma extends_trans s1 s2 s3 :
  extends s1 s2 -> extends s2 s3 -> extends s1 s3.
Proof.
  intros (HA & HC & HE & HD & HT & HL & Hc)
         (HA' & HC' & HE' & HD' & HT' & HL' & Hc').
  split; [congruence|]. split.
  - destruct HC as [HC|HC], HC' as [HC'|HC']; rewrite HC', HC; auto.
  - repeat (match goal with |- _ /\ _ => split end);
      eapply grows_trans; eassumption.
Qed.

Create HintDb keeps.

Lemma keeps_ret {A : Type} (a : A) : keeps (World := World) (ret a).
Proof. intros s. apply extends_refl. Qed.

Lemma keeps_raise {A : Type} (e : Exn) :
  keeps (World := World) (raise (A := A) e).
Proof. intros s. apply extends_refl. Qed.

Lemma keeps_sys_exit {A : Type} (c : Z) :
  keeps (World := World) (sys_exit (A := A) c).
Proof. intros s. apply extends_refl. Qed.

Lemma keeps_gets {A : Type} (f : State World -> A) : keeps (World := World) (gets f).
Proof. intros s. apply extends_refl. Qed.

Lemma keeps_bind {A B : Type} (m : @M World A) (k : A -> @M World B) :
  keeps m -> (forall a, keeps (World := World) (k a)) -> keeps (World := World) (bind m k).
Proof.
  intros Hm Hk s. unfold bind. specialize (Hm s).
  destruct (m s) as [[a|e|c] s1]; cbn [snd] in *; try assumption.
  eapply extends_trans; [exact Hm|apply Hk].
Qed.

Lemma keeps_ERRORS_append msg : keeps (World := World) (ERRORS_append msg).
Proof. intros s. extends_by_computation. Qed.

Lemma keeps_DELETED_append path :
  keeps (World := World) (DELETED_append path).
Proof. intros s. extends_by_computation. Qed.

Lemma keeps_TRANSFERRED_append exp :
  keeps (World := World) (TRANSFERRED_append exp).
Proof. intros s. extends_by_computation. Qed.

Lemma keeps_LOGGER_log l fmt args :
  keeps (World := World) (LOGGER_log l fmt args).
Proof. intros s. extends_by_computation. Qed.

Lemma keeps_enter c : keeps (World := World) (enter c).
Proof. intros s. extends_by_computation. Qed.

Lemma keeps_try_os op record : keeps (World := World) (try_os op record).
Proof.
  intros s. unfold try_os. destruct (op (fs s)) as [r w].
  extends_by_computation.
Qed.

Lemma keeps_getmtime path : keeps (World := World) (getmtime path).
Proof.
  intros s. unfold getmtime.
  destruct (os_path_getmtime path (fs s)); apply extends_refl.
Qed.

Lemma keeps_time : keeps (World := World) time.
Proof. intros s. extends_by_computation. Qed.

Lemma keeps_store_minimum_age :
  keeps (World := World)
    (modify (fun s => set_CONFIG (set_minimum_age (5 * 60) (CONFIG s)) s)).
Proof. intros s. extends_by_computation. Qed.

#[local] Hint Resolve keeps_ret keeps_raise keeps_sys_exit keeps_gets
  keeps_ERRORS_append keeps_DELETED_append keeps_TRANSFERRED_append
  keeps_LOGGER_log keeps_enter keeps_try_os keeps_store_minimum_age
  keeps_getmtime keeps_time : keeps.

(** One step of a proof that a function keeps the globals: follow the
    shape of the code. *)
Ltac keeps_step :=
  first
    [ solve [auto with keeps]
    | apply keeps_bind; [|intros ?; cbv beta]
    | match goal with
      | |- keeps (if ?b then _ else _) => destruct b
      | |- keeps (match ?x with _ => _ end) => destruct x
      end ].

Ltac keeps_all := cbv zeta; repeat keeps_step.

Lemma keeps_terminate_program {A : Type} msg :
  keeps (World := World) (terminate_program (A := A) msg).
Proof. unfold terminate_program. keeps_all. Qed.

Lemma keeps_send_email text from to subject :
  keeps (World := World) (send_email text from to subject).
Proof. unfold send_email. keeps_all. Qed.

Lemma keeps_experiment_complete exp : keeps (World := World) (experiment_complete exp).
Proof. unfold experiment_complete, isfile. keeps_all. Qed.

Lemma keeps_delete_directory base : keeps (World := World) (delete_directory base).
Proof.
  unfold delete_directory, rmtree, rmdir, exists_. keeps_all.
Qed.

#[local] Hint Resolve keeps_terminate_program keeps_send_email
  keeps_experiment_complete keeps_delete_directory : keeps.

Lemma keeps_delete_loop exp sfxs : keeps (World := World) (delete_loop exp sfxs).
Proof.
  induction sfxs as [|sfx rest IH]; cbn [delete_loop]; keeps_all.
Qed.

#[local] Hint Resolve keeps_delete_loop : keeps.

Lemma keeps_delete_experiment exp : keeps (World := World) (delete_experiment exp).
Proof. unfold delete_experiment, exists_. keeps_all. Qed.

Lemma keeps_missing_loop exp sfxs : forall missing,
  keeps (World := World) (missing_loop exp sfxs missing).
Proof.
  induction sfxs as [|sfx rest IH]; intros missing; cbn [missing_loop];
    unfold exists_; keeps_all.
Qed.

Lemma keeps_copy_loop exp base sfxs : keeps (World := World) (copy_loop exp base sfxs).
Proof.
  induction sfxs as [|sfx rest IH]; cbn [copy_loop]; unfold copytree;
    keeps_all.
Qed.

#[local] Hint Resolve keeps_delete_experiment keeps_missing_loop
  keeps_copy_loop : keeps.

Lemma keeps_handle_single_experiment exp :
  keeps (World := World) (handle_single_experiment exp).
Proof. unfold handle_single_experiment, exists_. keeps_all. Qed.

#[local] Hint Resolve keeps_handle_single_experiment : keeps.

Lemma keeps_email_results : keeps (World := World) email_results.
Proof.
  unfold email_results.
  apply keeps_bind; [auto with keeps|intros _].
  apply keeps_bind; [auto with keeps|intros mtext].
  apply keeps_bind; [auto with keeps|intros cfg]. intros s.
  pose proof (keeps_send_email mtext (sender cfg) (receivers cfg)
                "MERSCOPE experiments transferred" s) as Hmail.
  destruct (send_email _ _ _ _ s) as [[[]|err|c] s1]; cbn [snd] in *;
    try assumption.
  eapply extends_trans; [exact Hmail|apply keeps_terminate_program].
Qed.

Lemma keeps_for_each dirs : keeps (World := World) (for_each dirs).
Proof. induction dirs as [|edir rest IH]; cbn [for_each]; keeps_all. Qed.

#[local] Hint Resolve keeps_email_results keeps_for_each : keeps.

Lemma keeps_process_experiments : keeps (World := World) process_experiments.
Proof. unfold process_experiments, listdir. keeps_all. Qed.

#[local] Hint Resolve keeps_process_experiments : keeps.

(** X1. Whatever the file system does, a whole run never changes the
    flags, writes no key of the configuration other than the minimum age
    (which it sets to 300), and never removes or rewrites an entry of the
    errors, deleted and transferred lists, of the log or of the trace of
    calls: each of them ends as it started, with entries added at the
    end. *)
Theorem run_only_extends_the_globals s : extends s (snd (main s)).
Proof. revert s. change (keeps (World := World) main). unfold main. keeps_all. Qed.

(** *** The listing, the report and the exit status *)

Lemma terminate_with_template {A : Type} (err : Exn) s :
  terminate_program (A := A) (Some (TEMPLATE_of err)) s
  = (Exit (-1), add_LOGGER (mkLog critical (TEMPLATE_of err) []) s).
Proof. reflexivity. Qed.

(** X2. When the listing of [source/merfish_output] raises, the run ends
    there with exit status -1 after one critical record, which says that
    the source directory could not be found for [FileNotFoundError] and
    gives the type and arguments of any other exception; no entry is
    handled, no call is made, nothing is reported and no mail is sent. *)
Theorem failed_listing_is_fatal s err :
  os_listdir (source (CONFIG s) ++ "/merfish_output")%string (fs s) = inl err ->
  process_experiments s
  = (Exit (-1),
     add_LOGGER
       (mkLog critical
          (if String.eqb (exn_type err) "FileNotFoundError"
           then ("Could not find source directory "
                 ++ source (CONFIG s) ++ "/merfish_output")%string
           else TEMPLATE_of err) [])
       (add_LOGGER
          (mkLog info "Reading experiments from %s"
                 [Str (source (CONFIG s) ++ "/merfish_output")%string]) s)).
Proof.
  intros Hlist. unfold process_experiments. run. rewrite Hlist.
  destruct (String.eqb (exn_type err) "FileNotFoundError"); reflexivity.
Qed.

Lemma mail_text_empty_iff s :
  mail_text s = EmptyString
  <-> TRANSFERRED s = [] /\ DELETED s = [] /\ ERRORS s = [].
Proof.
  unfold mail_text.
  destruct (TRANSFERRED s), (DELETED s), (ERRORS s); cbn;
    (split; [intros H; try discriminate; auto
            |intros (H1 & H2 & H3); try discriminate; auto]).
Qed.

(** X3. The text of the report is empty exactly when the transferred,
    deleted and errors lists are all empty. *)
Theorem report_text_empty_iff_nothing_to_report s :
  mail_text s = EmptyString
  <-> TRANSFERRED s = [] /\ DELETED s = [] /\ ERRORS s = [].
Proof. apply mail_text_empty_iff. Qed.

Lemma calls_between_refl p s : calls_between p s s.
Proof. exists []. split; [now rewrite app_nil_r|constructor]. Qed.

Lemma calls_between_trans p s1 s2 s3 :
  calls_between p s1 s2 -> calls_between p s2 s3 -> calls_between p s1 s3.
Proof.
  intros (m & Hm & Fm) (m' & Hm' & Fm'). exists (m ++ m'). split.
  - rewrite Hm', Hm, app_assoc. reflexivity.
  - apply Forall_app. split; assumption.
Qed.

Lemma handle_calls_no_mail exp s :
  calls_between no_mail s (snd (handle_single_experiment exp s)).
Proof.
  destruct (handle_single_experiment exp s) as [o s'] eqn:H. cbn [snd].
  apply handle_cases in H.
  destruct H as [Hnot Ho Hc Hf HT HD
                |pre post sfx err Hreach Ht Hs Ho Hc HE HT HD
                |removals Hreach Ho Hc Hrem HT].
  - exists []. split; [now rewrite app_nil_r|constructor].
  - eexists. split; [exact Hc|]. apply Forall_app. split.
    + apply Forall_forall. intros c Hin. apply copies_succeeded in Hin.
      destruct Hin as (? & ? & ->). reflexivity.
    + repeat constructor.
  - eexists. split; [exact Hc|]. apply Forall_app. split.
    + destruct (TRANSFER (ARG s)); [|constructor].
      apply Forall_forall. intros c Hin. apply copies_succeeded in Hin.
      destruct Hin as (? & ? & ->). reflexivity.
    + constructor; [reflexivity|].
      eapply Forall_impl; [|exact Hrem]. intros c Hc'.
      destruct c; (reflexivity || discriminate).
Qed.

Lemma handle_raises_uncaught exp s e :
  fst (handle_single_experiment exp s) = Raise e -> uncaught e.
Proof.
  destruct (handle_single_experiment exp s) as [o s'] eqn:H. cbn [fst].
  intros ->. destruct (handle_outcome _ _ _ _ H) as [Ho|[Ho|(err & Ho & Hm)]].
  - discriminate.
  - injection Ho as ->. now left.
  - injection Ho as ->. right. eauto.
Qed.

Lemma for_each_spec dirs : forall s,
  calls_between no_mail s (snd (for_each dirs s))
  /\ (fst (for_each dirs s) = Return tt
      \/ exists e, fst (for_each dirs s) = Raise e /\ uncaught e).
Proof.
  induction dirs as [|edir rest IH]; intros s.
  - cbn. split; [apply calls_between_refl|now left].
  - cbn [for_each]. unfold bind.
    pose proof (handle_calls_no_mail edir s) as Hc.
    pose proof (handle_raises_uncaught edir s) as Hraise.
    destruct (handle_single_experiment edir s) as [o s1] eqn:H.
    cbn [fst snd] in Hc, Hraise.
    destruct (handle_outcome _ _ _ _ H) as [-> |[-> |(err & -> & _)]].
    + destruct (IH s1) as (Hc' & Ho). split; [|exact Ho].
      eapply calls_between_trans; eassumption.
    + cbn. split; [exact Hc|]. right. eauto.
    + cbn. split; [exact Hc|]. right. eauto.
Qed.

(** X4. A run makes at most one mail submission, as its last call.  When
    it makes none and returns, the three report lists are empty; when it
    makes one, the text submitted is the report of the final lists and is
    not empty, and the run returns if the submission went through and ends
    with exit status -1 if it raised. *)
Theorem report_is_sent_at_most_once s o s' :
  process_experiments s = (o, s') ->
  exists new,
    calls s' = calls s ++ new
    /\ ((Forall (fun c => no_mail c = true) new
         /\ (o = Return tt ->
             TRANSFERRED s' = [] /\ DELETED s' = [] /\ ERRORS s' = []))
        \/ (exists before raised,
              new = before ++ [Sendmail (mail_text s') raised]
              /\ Forall (fun c => no_mail c = true) before
              /\ mail_text s' <> EmptyString
              /\ o = match raised with
                     | None => Return tt
                     | Some _ => Exit (-1)
                     end)).
Proof.
  unfold process_experiments. intros H. run.
  destruct (os_listdir _ (fs s)) as [err|dirs].
  - exists []. rewrite app_nil_r.
    destruct (String.eqb (exn_type err) "FileNotFoundError");
      cbn in H; injection H as <- <-;
      (split; [reflexivity|]); left; (split; [constructor|discriminate]).
  - run.
    match type of H with
    | context [for_each dirs ?s0] =>
        destruct (for_each_spec dirs s0) as ((new & Hc & Hnew) & Ho);
        destruct (for_each dirs s0) as [o1 s1] eqn:Hloop
    end.
    cbn [fst snd] in *. run.
    destruct Ho as [-> | (e & -> & _)].
    + destruct (truthy (TRANSFERRED s1) || truthy (DELETED s1)
                || truthy (ERRORS s1)) eqn:Hreport.
      * assert (Htext : mail_text s1 <> EmptyString).
        { intros Hempty. apply mail_text_empty_iff in Hempty.
          destruct Hempty as (H1 & H2 & H3).
          rewrite H1, H2, H3 in Hreport. discriminate. }
        unfold email_results, send_email in H. run.
        destruct (smtp_session _ _ _ _ _ (fs s1)) as [[err|] w]; run;
          [rewrite terminate_with_template in H|];
          injection H as <- <-; run;
          (eexists; split; [rewrite Hc, <- app_assoc; reflexivity|]);
          right; eexists new, _; (split; [reflexivity|]);
          (split; [exact Hnew|]); (split; [exact Htext|reflexivity]).
      * injection H as <- <-. exists new. split; [exact Hc|]. left.
        split; [exact Hnew|]. intros _.
        destruct (TRANSFERRED s1), (DELETED s1), (ERRORS s1);
          try discriminate. auto.
    + injection H as <- <-. exists new. split; [exact Hc|]. left.
      split; [exact Hnew|discriminate].
Qed.




(** *** The handler, gate by gate *)

Lemma visible_iff exp s :
  visible exp s <->
  os_path_exists (secondary (CONFIG s)) (fs s) = true
  /\ existsb (fun sfx =>
        negb (os_path_exists (category_dir (source (CONFIG s)) sfx exp)
                             (fs s))) SUFFIX = false.
Proof. unfold visible. now rewrite all_present_dec. Qed.

Lemma transfer_then_delete_CONFIG exp s :
  CONFIG (snd (transfer_then_delete exp s)) = CONFIG s.
Proof.
  unfold transfer_then_delete. run.
  destruct (copy_loop exp (source (CONFIG s)) SUFFIX s)
    as [[[|]|e|c] s1] eqn:Hcopy;
    apply copy_loop_spec in Hcopy; destruct Hcopy as (_ & HC & _);
    run; try exact HC.
  destruct (delete_experiment exp s1) as [o s2] eqn:Hdel.
  apply delete_experiment_spec in Hdel. destruct Hdel as (_ & HC' & _).
  cbn [snd]. congruence.
Qed.

(** X6. The handler of an experiment writes the configuration exactly when
    the experiment passes the first two gates, its marker is a file and
    the modification time of the marker is read (line 96 returns): the
    minimum age is then 300 afterwards, whatever it was and whether or not
    the marker is old enough.  In every other case, also when reading the
    modification time raises, the configuration is untouched. *)
Theorem handler_stores_the_threshold_when_marker_seen exp s :
  (visible exp s
   /\ os_path_isfile (sentinel_of exp s) (fs s) = true
   /\ (exists modtime,
         os_path_getmtime (sentinel_of exp s) (fs s) = inr modtime) ->
   CONFIG (snd (handle_single_experiment exp s))
   = set_minimum_age 300 (CONFIG s))
  /\ (~ (visible exp s
         /\ os_path_isfile (sentinel_of exp s) (fs s) = true
         /\ exists modtime,
              os_path_getmtime (sentinel_of exp s) (fs s) = inr modtime) ->
      CONFIG (snd (handle_single_experiment exp s)) = CONFIG s).
Proof.
  rewrite handle_single_experiment_eq, visible_iff. split.
  - intros ((-> & ->) & -> & modtime & ->). cbn [negb]. cbv zeta.
    destruct (_ <=? 300); [reflexivity|].
    apply transfer_then_delete_CONFIG.
  - intros Hnot.
    destruct (os_path_exists (secondary (CONFIG s)) (fs s)); cbn [negb];
      [|reflexivity].
    destruct (existsb _ SUFFIX); [reflexivity|].
    destruct (os_path_isfile _ (fs s)); cbn [negb]; [|reflexivity].
    destruct (os_path_getmtime _ (fs s)) as [err|modtime]; [reflexivity|].
    exfalso. apply Hnot. eauto 6.
Qed.


(** X9. With the secondary root absent, every entry of the listing is
    stopped at the first gate: the loop returns, the errors gain the same
    message once per entry, and nothing else changes. *)
Theorem absent_secondary_root_is_reported_per_entry dirs : forall s,
  os_path_exists (secondary (CONFIG s)) (fs s) = false ->
  exists s',
    for_each dirs s = (Return tt, s')
    /\ ERRORS s' = ERRORS s ++ repeat (target_error s) (length dirs)
    /\ fs s' = fs s /\ CONFIG s' = CONFIG s /\ calls s' = calls s
    /\ DELETED s' = DELETED s /\ TRANSFERRED s' = TRANSFERRED s
    /\ LOGGER s' = LOGGER s.
Proof.
  induction dirs as [|edir rest IH]; intros s Habsent.
  - exists s. cbn. rewrite app_nil_r. repeat split.
  - cbn [for_each]. unfold bind.
    rewrite handle_single_experiment_eq, Habsent. cbn [negb].
    destruct (IH (add_ERRORS (target_error s) s) Habsent)
      as (s' & H & HE & Hf & HC & Hc & HD & HT & HL).
    exists s'. split; [exact H|]. run.
    repeat split; try assumption.
    rewrite HE. cbn [length repeat]. rewrite <- app_assoc. reflexivity.
Qed.

(** X10. Without [--debug], skipping an experiment that lacks a category
    folder is silent: no record reaches the log stream. *)
Theorem skip_for_missing_category_emits_nothing exp sfx s :
  DEBUG (ARG s) = false ->
  os_path_exists (secondary (CONFIG s)) (fs s) = true ->
  In sfx SUFFIX ->
  os_path_exists (category_dir (source (CONFIG s)) sfx exp) (fs s) = false ->
  ARG (snd (handle_single_experiment exp s)) = ARG s
  /\ emitted (ARG s) (LOGGER (snd (handle_single_experiment exp s)))
     = emitted (ARG s) (LOGGER s).
Proof.
  intros Hdebug Hsec Hin Hmissing.
  rewrite handle_single_experiment_eq, Hsec. cbn [negb].
  destruct (existsb _ SUFFIX) eqn:Hall.
  - cbn [snd]. run. split; [reflexivity|].
    unfold emitted. rewrite filter_app. cbn [filter log_level].
    unfold setup_logging. rewrite Hdebug.
    destruct (VERBOSE (ARG s)); cbn; now rewrite app_nil_r.
  - rewrite (proj1 (all_present_dec exp s) Hall sfx Hin) in Hmissing.
    discriminate.
Qed.

(** *** What [delete_directory] reports *)

(** X11. [delete_directory] returns [False] exactly when the delete flag
    is on and the tree removal raises.  In that case the plain removal is
    not attempted, the path is not recorded as deleted and the errors gain
    one entry; a plain removal that raises never makes it return
    [False]. *)
Theorem delete_directory_fails_iff_rmtree_raises base s :
  (fst (delete_directory base s) = Return false
   <-> DELETE (ARG s) = true
       /\ exists err, fst (shutil_rmtree base (fs s)) = Some err)
  /\ (fst (delete_directory base s) = Return false ->
      DELETED (snd (delete_directory base s)) = DELETED s
      /\ (forall r, ~ In (Rmdir base r) (calls s) ->
                    ~ In (Rmdir base r) (calls (snd (delete_directory base s))))
      /\ length (ERRORS (snd (delete_directory base s)))
         = S (length (ERRORS s))).
Proof.
  unfold delete_directory. run.
  destruct (DELETE (ARG s)); run.
  - destruct (shutil_rmtree base (fs s)) as [[err|] w]; run.
    + split; [split; [eauto|reflexivity]|]. intros _.
      split; [reflexivity|]. split.
      * intros r Hnot Hin. apply Hnot.
        apply in_app_or in Hin. destruct Hin as [Hin|[Hin|[]]];
          [|discriminate].
        apply in_app_or in Hin. destruct Hin as [Hin|[Hin|[]]];
          [exact Hin|discriminate].
      * rewrite length_app. cbn. lia.
    + assert (Hno : forall o : Outcome bool * State World,
                fst o <> Return false ->
                (fst o = Return false
                 <-> true = true /\ exists err, @None Exn = Some err)
                /\ (fst o = Return false ->
                    DELETED (snd o) = DELETED s
                    /\ (forall r, ~ In (Rmdir base r) (calls s) ->
                                  ~ In (Rmdir base r) (calls (snd o)))
                    /\ length (ERRORS (snd o)) = S (length (ERRORS s)))).
      { intros o Ho. split; [split|]; try contradiction.
        intros (_ & err & Habs). discriminate. }
      apply Hno.
      destruct (os_path_exists base w); run;
        [destruct (os_rmdir base w) as [[err|] w']; run|];
        match goal with
        | |- context [if os_path_exists base ?x then _ else _] =>
            destruct (os_path_exists base x)
        end; cbn; discriminate.
  - split; [split; [discriminate|intros (Habs & _); discriminate]|].
    discriminate.
Qed.

(** X12. In real-delete mode, a path that [delete_directory] records as
    deleted is gone when it returns: it returns [True] only with the
    directory absent from the file system it leaves, and the deleted list
    then gains exactly that path. *)
Theorem recorded_deletion_means_directory_gone base s s' :
  DELETE (ARG s) = true ->
  delete_directory base s = (Return true, s') ->
  os_path_exists base (fs s') = false
  /\ DELETED s' = DELETED s ++ [base]
  /\ In (Rmtree base None) (calls s').
Proof.
  unfold delete_directory. intros Hdel H. run. rewrite Hdel in H. run.
  destruct (shutil_rmtree base (fs s)) as [[err|] w]; run; [discriminate|].
  destruct (os_path_exists base w) eqn:X; run.
  - destruct (os_rmdir base w) as [[err|] w'] eqn:E'; run;
      (destruct (os_path_exists base w') eqn:X'; run; [discriminate|]);
      injection H as <-; run; (split; [exact X'|]); (split; [reflexivity|]);
      apply in_or_app; left; apply in_or_app; right; now left.
  - rewrite X in H. injection H as <-. run.
    split; [exact X|]. split; [reflexivity|].
    apply in_or_app; right; now left.
Qed.

(** *** Runs with the delete flag off *)

Lemma delete_directory_dry base s :
  DELETE (ARG s) = false ->
  delete_directory base s = (Return true, noted_deleted base s).
Proof. intros Hoff. unfold delete_directory. run. now rewrite Hoff. Qed.

Lemma noted_all_frame root exp sfxs : forall s,
  fs (noted_all root exp sfxs s) = fs s
  /\ ARG (noted_all root exp sfxs s) = ARG s
  /\ CONFIG (noted_all root exp sfxs s) = CONFIG s
  /\ ERRORS (noted_all root exp sfxs s) = ERRORS s
  /\ TRANSFERRED (noted_all root exp sfxs s) = TRANSFERRED s
  /\ DELETED (noted_all root exp sfxs s)
     = DELETED s ++ map (fun sfx => category_dir root sfx exp) sfxs
  /\ calls (noted_all root exp sfxs s)
     = calls s
       ++ map (fun sfx => Delete_directory (category_dir root sfx exp)) sfxs.
Proof.
  induction sfxs as [|sfx rest IH]; intros s.
  - cbn. now rewrite !app_nil_r.
  - unfold noted_all in *. cbn [fold_left map].
    destruct (IH (noted_deleted (category_dir root sfx exp) s))
      as (Hf & HA & HC & HE & HT & HD & Hc).
    rewrite Hf, HA, HC, HE, HT, HD, Hc. unfold noted_deleted. run.
    rewrite <- !app_assoc. repeat split.
Qed.

Lemma delete_loop_dry exp sfxs : forall s,
  DELETE (ARG s) = false ->
  delete_loop exp sfxs s
  = (Return true, noted_all (source (CONFIG s)) exp sfxs s).
Proof.
  induction sfxs as [|sfx rest IH]; intros s Hoff.
  - reflexivity.
  - cbn [delete_loop]. run. rewrite (delete_directory_dry _ s Hoff). run.
    rewrite IH by exact Hoff. reflexivity.
Qed.

Lemma delete_experiment_dry exp s :
  DELETE (ARG s) = false ->
  exists s',
    delete_experiment exp s = (Return tt, s')
    /\ fs s' = fs s
    /\ TRANSFERRED s' = TRANSFERRED s ++ [exp]
    /\ (if os_path_exists (secondary (CONFIG s) ++ "/" ++ exp)%string (fs s)
        then DELETED s'
             = DELETED s
               ++ map (fun sfx => category_dir (source (CONFIG s)) sfx exp)
                      SUFFIX
               ++ [(secondary (CONFIG s) ++ "/" ++ exp)%string]
             /\ ERRORS s' = ERRORS s
        else DELETED s'
             = DELETED s
               ++ map (fun sfx => category_dir (source (CONFIG s)) sfx exp)
                      SUFFIX
             /\ ERRORS s' = ERRORS s ++ [incomplete_error exp])
    /\ calls_between no_os_removal s s'.
Proof.
  intros Hoff. rewrite delete_experiment_after_loop.
  set (s0 := entered exp s).
  assert (H0 : ARG s0 = ARG s /\ CONFIG s0 = CONFIG s /\ fs s0 = fs s
               /\ ERRORS s0 = ERRORS s /\ DELETED s0 = DELETED s
               /\ TRANSFERRED s0 = TRANSFERRED s ++ [exp]
               /\ calls s0 = calls s ++ [Delete_experiment exp])
    by (repeat split).
  clearbody s0. destruct H0 as (HA0 & HC0 & Hf0 & HE0 & HD0 & HT0 & Hc0).
  rewrite delete_loop_dry by congruence.
  destruct (noted_all_frame (source (CONFIG s0)) exp SUFFIX s0)
    as (Hf & HA & HC & HE & HT & HD & Hc).
  set (s1 := noted_all (source (CONFIG s0)) exp SUFFIX s0) in *.
  clearbody s1. rewrite HC, Hf, HC0, Hf0.
  rewrite HE0 in HE. rewrite HT0 in HT. rewrite HD0, HC0 in HD.
  rewrite Hc0, HC0, <- app_assoc in Hc. cbn [app] in Hc.
  assert (Hdirs : Forall (fun c => no_os_removal c = true)
            (map (fun sfx => Delete_directory
                               (category_dir (source (CONFIG s)) sfx exp))
                 SUFFIX)) by (repeat constructor).
  destruct (os_path_exists _ (fs s)) eqn:Hsec.
  - rewrite delete_directory_dry by congruence.
    eexists. split; [reflexivity|]. unfold noted_deleted, calls_between.
    cbn [fs TRANSFERRED DELETED ERRORS calls add_DELETED add_LOGGER add_call].
    rewrite Hf, Hf0, HT, HD, HE, Hc.
    split; [reflexivity|]. split; [reflexivity|].
    split; [now rewrite <- app_assoc|].
    eexists. rewrite <- app_assoc. split; [reflexivity|].
    constructor; [reflexivity|]. apply Forall_app. split; [exact Hdirs|].
    repeat constructor.
  - eexists. split; [reflexivity|]. unfold calls_between.
    cbn [fs TRANSFERRED DELETED ERRORS calls add_ERRORS add_LOGGER].
    rewrite Hf, Hf0, HT, HD, HE, Hc.
    split; [reflexivity|]. split; [reflexivity|].
    split; [split; reflexivity|].
    eexists. split; [reflexivity|]. constructor; [reflexivity|exact Hdirs].
Qed.

(** X13. With the delete flag off, [delete_experiment] always returns and
    calls neither [rmtree] nor [rmdir]: the file system is as it was, the
    name is appended to the transferred list, and the three category
    directories are appended to the deleted list in the order analysis,
    output, raw_data, followed by the secondary path if it exists.  If it
    does not exist, the error that deletion is incomplete is recorded even
    though nothing was to be deleted. *)
Theorem simulated_deletion exp s :
  DELETE (ARG s) = false ->
  exists s',
    delete_experiment exp s = (Return tt, s')
    /\ fs s' = fs s
    /\ TRANSFERRED s' = TRANSFERRED s ++ [exp]
    /\ (if os_path_exists (secondary (CONFIG s) ++ "/" ++ exp)%string (fs s)
        then DELETED s'
             = DELETED s
               ++ map (fun sfx => category_dir (source (CONFIG s)) sfx exp)
                      SUFFIX
               ++ [(secondary (CONFIG s) ++ "/" ++ exp)%string]
             /\ ERRORS s' = ERRORS s
        else DELETED s'
             = DELETED s
               ++ map (fun sfx => category_dir (source (CONFIG s)) sfx exp)
                      SUFFIX
             /\ ERRORS s' = ERRORS s ++ [incomplete_error exp])
    /\ calls_between no_os_removal s s'.
Proof. apply delete_experiment_dry. Qed.

Lemma copy_loop_dry_fs sfxs : forall exp base s,
  TRANSFER (ARG s) = false -> fs (snd (copy_loop exp base sfxs s)) = fs s.
Proof.
  induction sfxs as [|sfx rest IH]; intros exp base s Hoff.
  - reflexivity.
  - cbn [copy_loop]. run. rewrite Hoff. run. now rewrite IH.
Qed.

Lemma copies_no_os_removal src_root tgt_root exp (sfxs : list string) :
  Forall (fun c => no_os_removal c = true)
         (map (copied src_root tgt_root exp) sfxs).
Proof.
  apply Forall_forall. intros c Hin. apply copies_succeeded in Hin.
  destruct Hin as (? & ? & ->). reflexivity.
Qed.

Lemma transfer_then_delete_dry exp s :
  DELETE (ARG s) = false ->
  fst (transfer_then_delete exp s) = Return tt
  /\ calls_between no_os_removal s (snd (transfer_then_delete exp s))
  /\ (TRANSFER (ARG s) = false ->
      fs (snd (transfer_then_delete exp s)) = fs s).
Proof.
  intros Hoff. unfold transfer_then_delete. run.
  pose proof (copy_loop_dry_fs SUFFIX exp (source (CONFIG s)) s) as Hfs.
  destruct (copy_loop exp (source (CONFIG s)) SUFFIX s)
    as [o s1] eqn:Hcopy.
  apply copy_loop_spec in Hcopy. cbn [snd] in Hfs.
  destruct Hcopy as (HA & _ & _ & _
                     & [(-> & _ & Hc)
                       |(-> & _ & pre & sfx & post & err & _ & Hc & _)]).
  - destruct (delete_experiment_dry exp s1) as (s2 & -> & Hf & _ & _ & Hc');
      [congruence|].
    cbn [fst snd]. split; [reflexivity|]. split.
    + eapply calls_between_trans; [|exact Hc'].
      eexists. split; [exact Hc|].
      destruct (TRANSFER (ARG s)); [apply copies_no_os_removal|constructor].
    + intros Ht. rewrite Hf. auto.
  - cbn [fst snd]. split; [reflexivity|]. split; [|auto].
    eexists. split; [exact Hc|].
    apply Forall_app. split; [apply copies_no_os_removal|].
    repeat constructor.
Qed.

Lemma handle_dry exp s :
  DELETE (ARG s) = false ->
  (fst (handle_single_experiment exp s) = Return tt
   \/ exists err,
        fst (handle_single_experiment exp s) = Raise err
        /\ os_path_getmtime (sentinel_of exp s) (fs s) = inl err)
  /\ calls_between no_os_removal s (snd (handle_single_experiment exp s))
  /\ (TRANSFER (ARG s) = false ->
      fs (snd (handle_single_experiment exp s)) = fs s).
Proof.
  intros Hoff. rewrite handle_single_experiment_eq.
  assert (Hstop : forall (o : Outcome unit) (s1 : State World),
            o = Return tt
            \/ (exists err,
                  o = Raise err
                  /\ os_path_getmtime (sentinel_of exp s) (fs s) = inl err) ->
            calls s1 = calls s -> fs s1 = fs s ->
            (fst (o, s1) = Return tt
             \/ exists err,
                  fst (o, s1) = Raise err
                  /\ os_path_getmtime (sentinel_of exp s) (fs s) = inl err)
            /\ calls_between no_os_removal s (snd (o, s1))
            /\ (TRANSFER (ARG s) = false -> fs (snd (o, s1)) = fs s)).
  { intros o s1 Ho Hc Hf. cbn [fst snd]. split; [exact Ho|]. split; [|auto].
    exists []. rewrite app_nil_r. split; [exact Hc|constructor]. }
  destruct (negb (os_path_exists (secondary (CONFIG s)) (fs s)));
    [apply Hstop; auto|].
  destruct (existsb _ SUFFIX); [apply Hstop; auto|].
  destruct (negb (os_path_isfile _ (fs s))); [apply Hstop; auto|].
  destruct (os_path_getmtime _ (fs s)) as [err|modtime];
    [apply Hstop; eauto|].
  cbv zeta. destruct (_ <=? 300); [apply Hstop; auto|].
  destruct (transfer_then_delete_dry exp (at_transfer exp s) Hoff)
    as (Ho & Hc & Hf).
  split; [left; exact Ho|]. split; [exact Hc|exact Hf].
Qed.

Lemma for_each_dry dirs : forall s,
  DELETE (ARG s) = false ->
  (fst (for_each dirs s) = Return tt
   \/ exists err,
        fst (for_each dirs s) = Raise err
        /\ exists path w, os_path_getmtime path w = inl err)
  /\ calls_between no_os_removal s (snd (for_each dirs s))
  /\ (TRANSFER (ARG s) = false -> fs (snd (for_each dirs s)) = fs s).
Proof.
  induction dirs as [|edir rest IH]; intros s Hoff.
  - cbn. split; [now left|]. split; [apply calls_between_refl|auto].
  - cbn [for_each]. unfold bind.
    destruct (handle_dry edir s Hoff) as (Ho & Hc & Hf).
    destruct (keeps_handle_single_experiment edir s) as (HA & _).
    destruct (handle_single_experiment edir s) as [o s1].
    cbn [fst snd] in *.
    destruct Ho as [-> |(err & -> & Hm)].
    + destruct (IH s1) as (Ho' & Hc' & Hf'); [congruence|].
      split; [exact Ho'|]. split.
      * eapply calls_between_trans; eassumption.
      * intros Ht. rewrite Hf' by congruence. auto.
    + cbn [fst snd]. split; [right; eauto|]. split; assumption.
Qed.


(** X15. With both flags off, handling the whole listing leaves the file
    system exactly as it was. *)
Theorem dry_run_leaves_the_file_system dirs s :
  TRANSFER (ARG s) = false ->
  DELETE (ARG s) = false ->
  fs (snd (for_each dirs s)) = fs s.
Proof.
  intros Ht Hd. destruct (for_each_dry dirs s Hd) as (_ & _ & Hf). auto.
Qed.

(** *** What the deletion phase calls and records *)

(** X16. The operating-system calls of [delete_directory] are exactly
    these: none when the delete flag is off; otherwise one tree removal,
    followed by one plain removal exactly when the tree removal raised
    nothing and the directory still exists.  No plain removal is attempted
    after a tree removal that raised, and nothing is retried. *)
Theorem delete_directory_calls base s :
  calls (snd (delete_directory base s))
  = calls s ++ Delete_directory base :: removal_calls base s.
Proof.
  unfold delete_directory, removal_calls. run.
  destruct (DELETE (ARG s)); run; [|reflexivity].
  destruct (shutil_rmtree base (fs s)) as [[err|] w]; run;
    [now rewrite <- app_assoc|].
  destruct (os_path_exists base w) eqn:X; run.
  - destruct (os_rmdir base w) as [[err|] w']; run;
      destruct (os_path_exists base w'); run;
      now rewrite <- !app_assoc.
  - rewrite X. run. now rewrite <- app_assoc.
Qed.

Lemma delete_directory_DELETED base s o s' :
  delete_directory base s = (o, s') ->
  (o = Return true /\ DELETED s' = DELETED s ++ [base])
  \/ (o <> Return true /\ DELETED s' = DELETED s
      /\ (o = Return false -> length (ERRORS s') = S (length (ERRORS s)))).
Proof.
  unfold delete_directory. intros H. run.
  destruct (DELETE (ARG s)); run.
  - destruct (shutil_rmtree base (fs s)) as [[err|] w]; run.
    + injection H as <- <-. right. run.
      split; [discriminate|]. split; [reflexivity|]. intros _.
      rewrite length_app. cbn. lia.
    + destruct (os_path_exists base w) eqn:X; run.
      * destruct (os_rmdir base w) as [[err|] w']; run;
          (destruct (os_path_exists base w'); run; injection H as <- <-; run;
           [right; split; [discriminate|]; split; [reflexivity|discriminate]
           |left; split; reflexivity]).
      * rewrite X in H. injection H as <- <-. left. split; reflexivity.
  - injection H as <- <-. left. split; reflexivity.
Qed.

Lemma delete_loop_DELETED sfxs : forall exp s o s',
  delete_loop exp sfxs s = (o, s') ->
  CONFIG s' = CONFIG s
  /\ (length (ERRORS s) <= length (ERRORS s'))%nat
  /\ ((o = Return true
       /\ DELETED s'
          = DELETED s
            ++ map (fun sfx => category_dir (source (CONFIG s)) sfx exp) sfxs)
      \/ (o <> Return true
          /\ (exists k, (k <= length sfxs)%nat
                /\ DELETED s'
                   = DELETED s
                     ++ firstn k
                          (map (fun sfx =>
                                  category_dir (source (CONFIG s)) sfx exp)
                               sfxs))
          /\ (o = Return false ->
              (length (ERRORS s) < length (ERRORS s'))%nat))).
Proof.
  induction sfxs as [|sfx rest IH]; intros exp s o s' H.
  - cbn [delete_loop] in H. run. injection H as <- <-.
    split; [reflexivity|]. split; [lia|]. left. cbn. now rewrite app_nil_r.
  - cbn [delete_loop] in H. run.
    pose proof (keeps_delete_directory
                  (source (CONFIG s) ++ "/merfish_" ++ sfx ++ "/" ++ exp)%string
                  s) as (_ & _ & (more & Hmore) & _).
    destruct (delete_directory _ s) as [o1 s1] eqn:D. cbn [snd] in Hmore.
    pose proof (delete_directory_spec _ _ _ _ D) as (_ & HC & _).
    apply delete_directory_DELETED in D.
    assert (Hlen : (length (ERRORS s) <= length (ERRORS s1))%nat)
      by (rewrite Hmore, length_app; lia).
    destruct D as [(-> & HD)|(Hnot & HD & Hfalse)].
    + run. apply IH in H. destruct H as (HC' & Hlen' & H).
      split; [congruence|]. split; [lia|]. rewrite HC, HD in H.
      destruct H as [(-> & HD')|(Hnot & (k & Hk & HD') & Hfalse)].
      * left. split; [reflexivity|]. rewrite HD', <- app_assoc. reflexivity.
      * right. split; [exact Hnot|]. split.
        -- exists (S k). split; [cbn; lia|].
           rewrite HD', <- app_assoc. reflexivity.
        -- intros Ho. specialize (Hfalse Ho). lia.
    + assert (Hzero : exists k, (k <= length (sfx :: rest))%nat
                /\ DELETED s1
                   = DELETED s
                     ++ firstn k
                          (map (fun sfx =>
                                  category_dir (source (CONFIG s)) sfx exp)
                               (sfx :: rest))).
      { exists 0%nat. split; [lia|]. cbn. now rewrite app_nil_r. }
      destruct o1 as [[|]|e|c]; run; try contradiction;
        injection H as <- <-; (split; [exact HC|]); (split; [exact Hlen|]);
        right; (split; [discriminate|]); (split; [exact Hzero|]).
      * intros _. rewrite (Hfalse eq_refl). lia.
      * discriminate.
      * discriminate.
Qed.

(** X17. Whatever happens during the deletion of an experiment, the deleted
    list gains an initial segment of its four directories, in the order
    analysis, output, raw_data, secondary copy: no directory is recorded
    out of order or after a failure.  And when [delete_experiment] returns
    with the errors as they were, all four are recorded. *)
Theorem deleted_list_gains_leading_paths exp s o s' :
  delete_experiment exp s = (o, s') ->
  (exists k, DELETED s' = DELETED s ++ firstn k (deletion_paths exp s))
  /\ (o = Return tt -> ERRORS s' = ERRORS s ->
      DELETED s' = DELETED s ++ deletion_paths exp s).
Proof.
  rewrite delete_experiment_after_loop. unfold deletion_paths. intros H.
  destruct (delete_loop exp SUFFIX (entered exp s)) as [o1 s1] eqn:L.
  apply delete_loop_DELETED in L. run.
  destruct L as (HC & Hlen & [(-> & HD)|(Hnot & (k & Hk & HD) & Hfalse)]).
  - assert (H3 : DELETED s1
             = DELETED s
               ++ firstn 3
                    (map (fun sfx => category_dir (source (CONFIG s)) sfx exp)
                         SUFFIX
                     ++ [(secondary (CONFIG s) ++ "/" ++ exp)%string]))
      by (rewrite HD; reflexivity).
    rewrite HC in H. run.
    destruct (os_path_exists _ (fs s1)).
    + pose proof (keeps_delete_directory
                    (secondary (CONFIG s) ++ "/" ++ exp)%string s1)
        as (_ & _ & (more & Hmore) & _).
      destruct (delete_directory _ s1) as [o2 s2] eqn:D. cbn [snd] in Hmore.
      apply delete_directory_DELETED in D.
      destruct D as [(-> & HD2)|(Hnot & HD2 & Hfalse)].
      * injection H as <- <-. rewrite HD2, HD, <- app_assoc.
        split; [|auto]. exists 4%nat. reflexivity.
      * split.
        -- exists 3%nat. rewrite <- H3.
           destruct o2 as [[|]|e|c]; try contradiction;
             injection H as <- <-; exact HD2.
        -- intros -> HE. exfalso.
           destruct o2 as [[|]|e|c]; try contradiction; try discriminate.
           injection H as <-. run. specialize (Hfalse eq_refl).
           apply (f_equal (@length string)) in HE.
           rewrite length_app in HE. cbn in HE. lia.
    + injection H as <- <-. run. split; [exists 3%nat; exact H3|].
      intros _ HE. exfalso. apply (f_equal (@length string)) in HE.
      rewrite length_app in HE. cbn in HE. lia.
  - split.
    + exists k. rewrite firstn_app.
      replace (k - length (map _ SUFFIX))%nat with 0%nat
        by (rewrite length_map; lia).
      cbn [firstn]. rewrite app_nil_r.
      destruct o1 as [[|]|e|c]; try contradiction;
        injection H as <- <-; exact HD.
    + intros -> HE. exfalso.
      destruct o1 as [[|]|e|c]; try contradiction; try discriminate.
      injection H as <-. run. specialize (Hfalse eq_refl).
      apply (f_equal (@length string)) in HE.
      rewrite length_app in HE. cbn in HE. lia.
Qed.

End Properties.

(** * Runs on the small file system *)

Local Open Scope list_scope.

(** The two end-to-end scenarios of the specification. *)
Example end_to_end_transfer_and_delete :
  exists s',
    main (start world0 true true) = (Exit 0, s')
    /\ TRANSFERRED s' = ["E1"]
    /\ DELETED s' = ["/data/src/merfish_analysis/E1";
                     "/data/src/merfish_output/E1";
                     "/data/src/merfish_raw_data/E1"; "/data/sec/E1"]
    /\ ERRORS s' = []
    /\ length (filter (fun c => match c with Sendmail _ _ => true | _ => false end)
                      (calls s')) = 1%nat.
Proof. eexists. split; [vm_compute; reflexivity|]. vm_compute. auto. Qed.

Example end_to_end_dry_run :
  exists s',
    main (start world0 false false) = (Exit 0, s')
    /\ TRANSFERRED s' = ["E1"]
    /\ DELETED s' = ["/data/src/merfish_analysis/E1";
                     "/data/src/merfish_output/E1";
                     "/data/src/merfish_raw_data/E1"; "/data/sec/E1"]
    /\ ERRORS s' = []
    /\ fs s' = world0.
Proof. eexists. split; [vm_compute; reflexivity|]. vm_compute. auto. Qed.

(** C1 on a run: the copy of the second category is refused. *)
Lemma C1_witness_copy_refused :
  handle_single_experiment "E1" (start world_copy_refused true true)
  = (Return tt, after_copy_refused)
  /\ ERRORS after_copy_refused
     = [copy_error "/data/src/merfish_output/E1" "E1" permission_denied]
  /\ ~ In (Delete_experiment "E1") (calls after_copy_refused)
  /\ DELETED after_copy_refused = [].
Proof.
  assert (H : handle_single_experiment "E1" (start world_copy_refused true true)
              = (Return tt, after_copy_refused)) by (vm_compute; reflexivity).
  split; [exact H|].
  destruct (C1_deletion_only_after_all_copies _ _ _ _ H)
    as (new & Hc & _ & _ & Hfail).
  vm_compute in Hc. subst new.
  destruct (Hfail "/data/src/merfish_output/E1" "/data/tgt/merfish_output/E1"
                  permission_denied)
    as (_ & HE & Hnone & HD & _).
  { right. left. reflexivity. }
  repeat split; assumption.
Defined.

(** C4 on a run: the analysis folder is not there. *)
Lemma C4_witness_missing_category :
  os_path_exists "/data/sec" world_missing_category = true
  /\ os_path_exists "/data/src/merfish_analysis/E1" world_missing_category
     = false
  /\ exists s',
       handle_single_experiment "E1" (start world_missing_category true true)
       = (Return tt, s')
       /\ calls s' = [] /\ fs s' = world_missing_category
       /\ TRANSFERRED s' = [] /\ DELETED s' = [] /\ ERRORS s' = [].
Proof.
  assert (H1 : os_path_exists "/data/sec" world_missing_category = true)
    by (vm_compute; reflexivity).
  assert (H2 : In "analysis" SUFFIX) by (simpl; auto).
  assert (H3 : os_path_exists "/data/src/merfish_analysis/E1"
                 world_missing_category = false) by (vm_compute; reflexivity).
  split; [exact H1|]. split; [exact H3|].
  destruct (C4_missing_category_is_skipped_silently
              "E1" "analysis" (start world_missing_category true true)
              H1 H2 H3)
    as (s' & H & _ & Hc & Hf & HT & HD & HE).
  exists s'. repeat split; assumption.
Defined.

Lemma world0_reaches_transfer (transfer delete : bool) :
  reaches_transfer "E1" (start world0 transfer delete).
Proof.
  split; [vm_compute; reflexivity|]. split.
  - intros sfx [<-|[<-|[<-|[]]]]; vm_compute; reflexivity.
  - split; [vm_compute; reflexivity|].
    exists 600. split; vm_compute; reflexivity.
Defined.

(** C5 on a run: no flag given. *)
Lemma C5_witness_dry_run :
  handle_single_experiment "E1" (start world0 false false)
  = (Return tt, after_simulation)
  /\ TRANSFERRED after_simulation = ["E1"]
  /\ fs after_simulation = world0
  /\ forall c, In c (calls after_simulation) -> is_copy c = false.
Proof.
  assert (H : handle_single_experiment "E1" (start world0 false false)
              = (Return tt, after_simulation)) by (vm_compute; reflexivity).
  split; [exact H|].
  destruct (C5_simulated_transfer_is_reported
              "E1" (start world0 false false) _ _ eq_refl
              (world0_reaches_transfer false false) H)
    as (new & Hc & Hnone & HT).
  vm_compute in Hc. subst new.
  split; [exact HT|]. split; [vm_compute; reflexivity|exact Hnone].
Defined.

(** C6 on a run: the tree removal of the second category is refused; the
    third category is not attempted. *)
Lemma C6_witness_rmtree_refused :
  exists s',
    delete_experiment "E1" (start world_rmtree_refused true true)
    = (Return tt, s')
    /\ ERRORS s' = ERRORS after_output_refused ++ [incomplete_error "E1"]
    /\ calls s' = [Delete_experiment "E1";
                   Delete_directory "/data/src/merfish_analysis/E1";
                   Rmtree "/data/src/merfish_analysis/E1" None;
                   Delete_directory "/data/src/merfish_output/E1";
                   Rmtree "/data/src/merfish_output/E1"
                          (Some permission_denied)]
    /\ DELETED s' = ["/data/src/merfish_analysis/E1"].
Proof.
  assert (Hfail : deletion_stage_fails "E1"
                    (start world_rmtree_refused true true)
                    after_output_refused).
  { apply category_fails with (pre := ["analysis"]) (post := ["raw_data"])
                              (sfx := "output") (s1 := after_analysis_deleted);
      vm_compute; reflexivity. }
  destruct (C6_deletion_stops_at_first_failure _ _ _ Hfail)
    as (s' & H & _ & HE & Hc & _ & HD).
  exists s'. repeat split; assumption.
Defined.

(** C7 on a run: the secondary root holds no copy of the experiment. *)
Lemma C7_witness_no_secondary_copy :
  os_path_exists "/data/sec/E1" (fs after_categories_deleted) = false
  /\ exists s',
       delete_experiment "E1" (start world_no_secondary_copy true true)
       = (Return tt, s')
       /\ ERRORS s' = [incomplete_error "E1"]
       /\ DELETED s' = ["/data/src/merfish_analysis/E1";
                        "/data/src/merfish_output/E1";
                        "/data/src/merfish_raw_data/E1"]
       /\ forall c, In c (calls s') -> ~ removal_of "/data/sec/E1" c.
Proof.
  assert (Hloop : delete_loop "E1" SUFFIX
                    (entered "E1" (start world_no_secondary_copy true true))
                  = (Return true, after_categories_deleted))
    by (vm_compute; reflexivity).
  assert (Habsent : os_path_exists "/data/sec/E1" (fs after_categories_deleted)
                    = false) by (vm_compute; reflexivity).
  split; [exact Habsent|].
  destruct (C7_absent_secondary_is_an_error _ _ _ Hloop Habsent)
    as (s' & removals & H & HE & _ & HD & Hc & Hrem).
  exists s'. repeat split; try assumption.
  intros c Hin. rewrite Hc in Hin. destruct Hin as [<-|Hin]; [intros []|].
  rewrite Forall_forall in Hrem.
  destruct (Hrem c Hin) as (sfx & Hsfx & Hc').
  intros Hsec. destruct c; try contradiction;
    cbn in Hc', Hsec; subst;
    destruct Hsfx as [<-|[<-|[<-|[]]]]; discriminate.
Defined.

(** C10 on two runs.  Transfer and deletion go through: the deletion
    phase is entered and the name is recorded.  The first category was
    copied and the copy of the second is refused: the deletion phase is
    not entered and the transferred list stays empty. *)
Lemma C10_witness_recorded_iff_deletion_entered :
  (handle_single_experiment "E1" (start world0 true true)
   = (Return tt, after_success)
   /\ In (Delete_experiment "E1") (calls after_success)
   /\ TRANSFERRED after_success = ["E1"])
  /\ (handle_single_experiment "E1" (start world_copy_refused true true)
      = (Return tt, after_copy_refused)
      /\ In (Copytree "/data/src/merfish_analysis/E1"
                      "/data/tgt/merfish_analysis/E1" None)
            (calls after_copy_refused)
      /\ ~ In (Delete_experiment "E1") (calls after_copy_refused)
      /\ TRANSFERRED after_copy_refused = []).
Proof.
  split.
  - assert (H : handle_single_experiment "E1" (start world0 true true)
                = (Return tt, after_success)) by (vm_compute; reflexivity).
    split; [exact H|].
    destruct (C10_transferred_iff_deletion_entered _ _ _ _ H)
      as (new & Hc & _ & _ & _ & Hiff & Hgood).
    vm_compute in Hc. subst new.
    assert (Hclean : forall src tgt err,
              ~ In (Copytree src tgt (Some err)) (calls after_success)).
    { intros src tgt err Hin. vm_compute in Hin.
      repeat (destruct Hin as [Hin|Hin]; [discriminate|]). exact Hin. }
    split.
    + apply Hiff. split; [apply world0_reaches_transfer|exact Hclean].
    + apply (Hgood (world0_reaches_transfer true true) Hclean).
  - assert (H : handle_single_experiment "E1"
                  (start world_copy_refused true true)
                = (Return tt, after_copy_refused))
      by (vm_compute; reflexivity).
    split; [exact H|].
    destruct (C10_transferred_iff_deletion_entered _ _ _ _ H)
      as (new & Hc & _ & _ & Hfail & Hiff & _).
    vm_compute in Hc. subst new.
    assert (Hrefused : In (Copytree "/data/src/merfish_output/E1"
                                    "/data/tgt/merfish_output/E1"
                                    (Some permission_denied))
                          (calls after_copy_refused))
      by (right; left; reflexivity).
    split; [left; reflexivity|]. split.
    + intros Hin. apply Hiff in Hin. destruct Hin as (_ & Hclean).
      exact (Hclean _ _ _ Hrefused).
    + apply (Hfail _ _ _ Hrefused).
Defined.

(** The completeness check around the threshold, and with a configuration
    file that asks for another one. *)
Example marker_600_seconds_old :
  fst (experiment_complete "E1" (start (world_aged 600) true true))
  = Return true.
Proof. vm_compute. reflexivity. Qed.

Example marker_301_seconds_old :
  fst (experiment_complete "E1" (start (world_aged 301) true true))
  = Return true.
Proof. vm_compute. reflexivity. Qed.

Example marker_300_seconds_old :
  fst (experiment_complete "E1" (start (world_aged 300) true true))
  = Return false.
Proof. vm_compute. reflexivity. Qed.

Example marker_300_and_a_half_seconds_old :
  fst (experiment_complete "E1" (start (world_aged (601 # 2)) true true))
  = Return false.
Proof. vm_compute. reflexivity. Qed.

Example marker_absent :
  fst (experiment_complete "E1" (start world_unfinished true true))
  = Return false.
Proof. vm_compute. reflexivity. Qed.

Example configured_minimum_age_is_ignored :
  fst (experiment_complete "E1"
         (supply_minimum_age (Some 3600) (start (world_aged 600) true true)))
  = Return true
  /\ fst (experiment_complete "E1"
            (supply_minimum_age (Some 60) (start (world_aged 120) true true)))
     = Return false.
Proof. split; vm_compute; reflexivity. Qed.

(** C2, on the code.  With the target root absent and the secondary root
    present, the first gate lets the experiment through: no error is
    recorded and the three copies and the four deletions are made.  With
    the target root present and the secondary root absent, the gate stops
    the experiment with the error that the target path could not be found,
    naming the secondary root. *)
Theorem C2_first_gate_does_not_check_target_root :
  (os_path_exists "/data/tgt" world_no_target = false
   /\ exists s',
        handle_single_experiment "E1" (start world_no_target true true)
        = (Return tt, s')
        /\ ERRORS s' = []
        /\ filter is_copy (calls s')
           = map (copied "/data/src" "/data/tgt" "E1") SUFFIX
        /\ TRANSFERRED s' = ["E1"]
        /\ DELETED s' = ["/data/src/merfish_analysis/E1";
                         "/data/src/merfish_output/E1";
                         "/data/src/merfish_raw_data/E1"; "/data/sec/E1"])
  /\ (os_path_exists "/data/tgt" world_no_secondary_root = true
      /\ handle_single_experiment "E1" (start world_no_secondary_root true true)
         = (Return tt,
            add_ERRORS "Could not find target path /data/sec"
                       (start world_no_secondary_root true true))).
Proof.
  split.
  - split; [vm_compute; reflexivity|].
    eexists. split; [vm_compute; reflexivity|]. vm_compute. auto.
  - split; [vm_compute; reflexivity|].
    apply first_gate_is_on_secondary. vm_compute. reflexivity.
Qed.

(** C8, on the code.  In real-delete mode, with a tree removal that leaves
    the top directory and a plain removal that is refused,
    [delete_directory] attempts the plain removal and records its failure,
    then raises [NameError] at line 129: no anomaly entry is appended, and
    the exception leaves [delete_experiment], whose loop does not reach the
    two remaining categories, and the whole run, which sends no report. *)
Theorem C8_lingering_directory_raises_NameError :
  delete_directory "/data/src/merfish_analysis/E1" start_lingering
  = (Raise NameError_ERROR, after_lingering)
  /\ calls after_lingering
     = [Delete_directory "/data/src/merfish_analysis/E1";
        Rmtree "/data/src/merfish_analysis/E1" None;
        Rmdir "/data/src/merfish_analysis/E1" (Some directory_not_empty)]
  /\ ERRORS after_lingering
     = [("Could not rmdir delete /data/src/merfish_analysis/E1" ++ nl
         ++ TEMPLATE_of directory_not_empty)%string]
  /\ (exists s',
        delete_experiment "E1" start_lingering = (Raise NameError_ERROR, s')
        /\ calls s' = Delete_experiment "E1" :: calls after_lingering
        /\ ERRORS s' = ERRORS after_lingering
        /\ DELETED s' = [])
  /\ (exists s',
        main start_lingering = (Raise NameError_ERROR, s')
        /\ forall text raised, ~ In (Sendmail text raised) (calls s')).
Proof.
  do 3 (split; [vm_compute; reflexivity|]). split.
  - eexists. split; [vm_compute; reflexivity|].
    do 2 (split; [vm_compute; reflexivity|]). vm_compute. reflexivity.
  - eexists. split; [vm_compute; reflexivity|].
    intros text raised Hin. vm_compute in Hin.
    repeat (destruct Hin as [Hin|Hin]; [discriminate|]). exact Hin.
Qed.

(** C9, on the code.  The listing is [E1], [E2], both finished.  The
    handler of [E1] ends with the [NameError] of line 129; no handler
    encloses the call of line 245, so the loop ends there, in the state
    the handler of [E1] left: [E2] is not processed, though its own
    handler, run in that state, transfers it. *)
Theorem C9_exception_in_one_experiment_ends_the_loop :
  os_listdir "/data/src/merfish_output" (fs start_lingering)
  = inr ["E1"; "E2"]
  /\ for_each ["E1"; "E2"] start_lingering
     = (Raise NameError_ERROR,
        snd (handle_single_experiment "E1" start_lingering))
  /\ TRANSFERRED (snd (for_each ["E1"; "E2"] start_lingering)) = ["E1"]
  /\ TRANSFERRED (handled_in_turn ["E1"; "E2"] start_lingering)
     = ["E1"; "E2"]
  /\ fst (process_experiments start_lingering) = Raise NameError_ERROR
  /\ TRANSFERRED (snd (process_experiments start_lingering)) = ["E1"].
Proof.
  do 5 (split; [vm_compute; reflexivity|]). vm_compute. reflexivity.
Qed.

(** The other exception that nothing catches.  When the marker of [E1]
    goes away between lines 93 and 96, the exception of
    [os.path.getmtime] leaves the handler and ends the loop: nothing was
    copied or recorded, and [E2] is not looked at. *)
Example unreadable_marker_ends_the_loop :
  for_each (os := racy_os) ["E1"; "E2"] (start world_two true true)
  = (Raise (mkExn "FileNotFoundError" "(2, 'No such file or directory')"),
     add_LOGGER (mkLog info "E1" []) (start world_two true true)).
Proof. vm_compute. reflexivity. Qed.



(** * Further runs on the small file system *)

(** The listing directory is gone. *)
Lemma failed_listing_witness :
  os_listdir (source (CONFIG (start world_no_listing true true))
              ++ "/merfish_output")%string
             (fs (start world_no_listing true true))
  = inl (mkExn "FileNotFoundError" "(2, 'No such file or directory')")
  /\ fst (process_experiments (start world_no_listing true true)) = Exit (-1)
  /\ calls (snd (process_experiments (start world_no_listing true true))) = [].
Proof.
  assert (H : os_listdir (source (CONFIG (start world_no_listing true true))
                          ++ "/merfish_output")%string
                         (fs (start world_no_listing true true))
              = inl (mkExn "FileNotFoundError"
                           "(2, 'No such file or directory')"))
    by (vm_compute; reflexivity).
  split; [exact H|].
  rewrite (failed_listing_is_fatal _ _ H). split; reflexivity.
Defined.

(** The successful run of [world0] ends with its one mail. *)
Lemma report_witness_full_run :
  process_experiments (start world0 true true) = (Return tt, after_full_run)
  /\ exists before,
       calls after_full_run
       = before ++ [Sendmail (mail_text after_full_run) None].
Proof.
  assert (H : process_experiments (start world0 true true)
              = (Return tt, after_full_run)) by (vm_compute; reflexivity).
  split; [exact H|].
  destruct (report_is_sent_at_most_once _ _ _ H)
    as (new & Hc & [(_ & Hempty)|(before & raised & Hnew & _ & _ & Ho)]).
  - destruct (Hempty eq_refl) as (Habs & _). vm_compute in Habs.
    discriminate.
  - exists before. destruct raised; [discriminate|].
    rewrite Hc, Hnew. reflexivity.
Defined.



(** Two entries, no secondary root. *)
Lemma absent_secondary_root_witness :
  os_path_exists (secondary (CONFIG (start world_no_secondary_root true true)))
                 (fs (start world_no_secondary_root true true)) = false
  /\ exists s',
       for_each ["E1"; "E2"] (start world_no_secondary_root true true)
       = (Return tt, s')
       /\ ERRORS s' = ["Could not find target path /data/sec";
                       "Could not find target path /data/sec"]
       /\ calls s' = [].
Proof.
  assert (H : os_path_exists
                (secondary (CONFIG (start world_no_secondary_root true true)))
                (fs (start world_no_secondary_root true true)) = false)
    by (vm_compute; reflexivity).
  split; [exact H|].
  destruct (absent_secondary_root_is_reported_per_entry ["E1"; "E2"] _ H)
    as (s' & Hrun & HE & _ & _ & Hc & _).
  exists s'. repeat split; assumption.
Defined.

(** The analysis folder is missing and no logging flag is given. *)
Lemma silent_skip_witness :
  emitted (ARG (start world_missing_category true true))
          (LOGGER (snd (handle_single_experiment "E1"
                          (start world_missing_category true true))))
  = [].
Proof.
  assert (Hsec : os_path_exists
                   (secondary (CONFIG (start world_missing_category true true)))
                   (fs (start world_missing_category true true)) = true)
    by (vm_compute; reflexivity).
  assert (Hin : In "analysis" SUFFIX) by (simpl; auto).
  assert (Hmissing :
            os_path_exists
              (category_dir
                 (source (CONFIG (start world_missing_category true true)))
                 "analysis" "E1")
              (fs (start world_missing_category true true)) = false)
    by (vm_compute; reflexivity).
  destruct (skip_for_missing_category_emits_nothing
              "E1" "analysis" (start world_missing_category true true)
              eq_refl Hsec Hin Hmissing) as (_ & Hlog).
  exact Hlog.
Defined.

(** A real deletion that goes through. *)
Lemma recorded_deletion_witness :
  delete_directory "/data/src/merfish_analysis/E1" (start world0 true true)
  = (Return true, after_real_deletion)
  /\ os_path_exists "/data/src/merfish_analysis/E1" (fs after_real_deletion)
     = false
  /\ DELETED after_real_deletion = ["/data/src/merfish_analysis/E1"].
Proof.
  assert (H : delete_directory "/data/src/merfish_analysis/E1"
                               (start world0 true true)
              = (Return true, after_real_deletion))
    by (vm_compute; reflexivity).
  split; [exact H|].
  destruct (recorded_deletion_means_directory_gone
              "/data/src/merfish_analysis/E1" (start world0 true true) _
              eq_refl H)
    as (Hgone & HD & _).
  split; assumption.
Defined.

(** Transfer on, delete off. *)
Lemma simulated_deletion_witness :
  exists s',
    delete_experiment "E1" (start world0 true false) = (Return tt, s')
    /\ fs s' = world0
    /\ DELETED s' = ["/data/src/merfish_analysis/E1";
                     "/data/src/merfish_output/E1";
                     "/data/src/merfish_raw_data/E1"; "/data/sec/E1"]
    /\ ERRORS s' = [].
Proof.
  destruct (simulated_deletion "E1" (start world0 true false) eq_refl)
    as (s' & H & Hf & _ & Hlists & _).
  exists s'. split; [exact H|]. split; [exact Hf|].
  change (os_path_exists
            (secondary (CONFIG (start world0 true false)) ++ "/" ++ "E1")%string
            (fs (start world0 true false))) with true in Hlists.
  exact Hlists.
Defined.


Lemma dry_run_witness :
  fs (snd (for_each ["E1"] (start world0 false false))) = world0.
Proof.
  apply (dry_run_leaves_the_file_system ["E1"] (start world0 false false));
    reflexivity.
Defined.

(** The tree removal of the second category is refused: the deleted list
    holds the first directory only. *)
Lemma leading_paths_witness :
  exists s',
    delete_experiment "E1" (start world_rmtree_refused true true)
    = (Return tt, s')
    /\ DELETED s' = ["/data/src/merfish_analysis/E1"]
    /\ exists k,
         DELETED s'
         = firstn k (deletion_paths "E1" (start world_rmtree_refused true true)).
Proof.
  assert (H : delete_experiment "E1" (start world_rmtree_refused true true)
              = (Return tt,
                 snd (delete_experiment "E1"
                        (start world_rmtree_refused true true))))
    by (vm_compute; reflexivity).
  eexists. split; [exact H|]. split; [vm_compute; reflexivity|].
  destruct (deleted_list_gains_leading_paths _ _ _ _ H) as ((k & Hk) & _).
  exists k. exact Hk.
Defined.
